(** * qbusmqttapi: state models, topic factory and message factory

    A shallow embedding of [src/qbusmqttapi/const.py], [state.py] and
    [factory.py].  Python objects are dynamically typed, so every attribute
    and every decoded JSON datum is a [value]; a call can return or raise
    ([outcome]); the two logging calls of the factory are recorded as the
    list of [LogRecord]s a call emits.

    The standard-library functions the factory relies on ([json.dumps] with
    its default options and [json.loads]) are modelled concretely on text,
    so that payloads can be evaluated. *)

From Stdlib Require Import List NArith ZArith String Ascii Bool Lia.
From Stdlib Require Import Decimal DecimalFacts DecimalPos DecimalN DecimalZ.
Import ListNotations.

Set Warnings "-register-all".

Local Open Scope string_scope.
Local Open Scope list_scope.
Local Open Scope bool_scope.
Local Open Scope N_scope.

(** ** Python values *)

(** A Python [str] is a sequence of Unicode code points. *)
Definition codepoint := N.
Definition str := list codepoint.

Fixpoint str_of_string (s : string) : list codepoint :=
  match s with
  | EmptyString => []
  | String a r => N_of_ascii a :: str_of_string r
  end.

Coercion str_of_string : string >-> list.

(** [ord(c)] of an ASCII character. *)
Definition ord (a : ascii) : codepoint := N_of_ascii a.
Arguments ord a%_char_scope.

(** The double quote, and text written with single quotes standing for
    double quotes. *)
Definition QUOTE : codepoint := 34.

Definition dq (s : string) : str :=
  map (fun c => if c =? ord "'" then QUOTE else c) (str_of_string s).

Fixpoint str_eqb (a b : str) : bool :=
  match a, b with
  | [], [] => true
  | x :: a', y :: b' => (x =? y) && str_eqb a' b'
  | _, _ => false
  end.

(** The values the library handles: [None], [bool], [int], [float], [str],
    [list], [dict] with [str] keys in insertion order, and an instance with a
    [__dict__] (its attributes in assignment order).  A float is kept as the
    decimal literal that denotes it ("21.5", "1e-05", "NaN"): the rounding of
    literals to binary64 is outside the model. *)
Inductive value : Type :=
| VNone
| VBool (b : bool)
| VInt (z : Z)
| VFloat (lit : str)
| VStr (s : str)
| VList (items : list value)
| VDict (items : list (str * value))
| VObj (attrs : list (str * value)).

Definition is_none (v : value) : bool :=
  match v with VNone => true | _ => false end.

Inductive exn := AttributeError | TypeError | ValueError.

Inductive outcome (A : Type) : Type :=
| Returns (a : A)
| Raises (e : exn).
Arguments Returns {A} a.
Arguments Raises {A} e.

Definition bind {A B} (m : outcome A) (k : A -> outcome B) : outcome B :=
  match m with
  | Returns a => k a
  | Raises e => Raises e
  end.

Notation "x <- m ;; k" := (bind m (fun x => k))
  (at level 61, m at next level, right associativity).

(** *** dict operations *)

(** [d.get(key, default)] on a dict. *)
Fixpoint dict_get (d : list (str * value)) (key : str) (default : value) : value :=
  match d with
  | [] => default
  | (k, v) :: r => if str_eqb k key then v else dict_get r key default
  end.

(** [d[key] = v]: an existing key keeps its position, a new key goes last. *)
Fixpoint dict_set (d : list (str * value)) (key : str) (v : value) : list (str * value) :=
  match d with
  | [] => [(key, v)]
  | (k, w) :: r => if str_eqb k key then (k, v) :: r else (k, w) :: dict_set r key v
  end.

(** [dict(pairs)]. *)
Definition dict_of_pairs (pairs : list (str * value)) : list (str * value) :=
  fold_left (fun d kv => dict_set d (fst kv) (snd kv)) pairs [].

(** [o.get(key, default)]: only a dict has the method. *)
Definition py_get (o : value) (key : str) (default : value) : outcome value :=
  match o with
  | VDict d => Returns (dict_get d key default)
  | _ => Raises AttributeError
  end.

(** [o[key] = v] for a [str] key. *)
Definition py_setitem (o : value) (key : str) (v : value) : outcome value :=
  match o with
  | VDict d => Returns (VDict (dict_set d key v))
  | _ => Raises TypeError
  end.

Definition is_digit (c : codepoint) : bool := (ord "0" <=? c) && (c <=? ord "9").

(** A float literal denotes zero when its integer and fraction digits are all
    zero; the characters after an exponent marker do not matter. *)
Fixpoint float_literal_is_zero (lit : str) : bool :=
  match lit with
  | [] => true
  | c :: r =>
      if (c =? ord "e") || (c =? ord "E") then true
      else if is_digit c then (c =? ord "0") && float_literal_is_zero r
      else if (c =? ord "-") || (c =? ord ".") then float_literal_is_zero r
      else false
  end.

(** Truth value of an object, as tested by [if o]. *)
Definition truthy (v : value) : bool :=
  match v with
  | VNone => false
  | VBool b => b
  | VInt z => negb (Z.eqb z 0)
  | VFloat lit => negb (float_literal_is_zero lit)
  | VStr s => match s with [] => false | _ => true end
  | VList l => match l with [] => false | _ => true end
  | VDict d => match d with [] => false | _ => true end
  | VObj _ => true
  end.

(** ** The [json] module: encoding

    [json.dumps(o, cls=IgnoreNoneJsonEncoder)] with the default options:
    [ensure_ascii=True], separators [", "] and [": "], keys in insertion
    order. *)

Fixpoint digits_of_uint (u : Decimal.uint) : str :=
  match u with
  | Nil => []
  | D0 u => ord "0" :: digits_of_uint u
  | D1 u => ord "1" :: digits_of_uint u
  | D2 u => ord "2" :: digits_of_uint u
  | D3 u => ord "3" :: digits_of_uint u
  | D4 u => ord "4" :: digits_of_uint u
  | D5 u => ord "5" :: digits_of_uint u
  | D6 u => ord "6" :: digits_of_uint u
  | D7 u => ord "7" :: digits_of_uint u
  | D8 u => ord "8" :: digits_of_uint u
  | D9 u => ord "9" :: digits_of_uint u
  end.

(** [int.__repr__]. *)
Definition int_repr (z : Z) : str :=
  match Z.to_int z with
  | Decimal.Pos u => digits_of_uint u
  | Decimal.Neg u => ord "-" :: digits_of_uint u
  end.

Definition hex_digit (n : N) : codepoint :=
  if n <? 10 then ord "0" + n else ord "a" + (n - 10).

(** ['\\u{0:04x}'.format(n)]. *)
Definition u_escape (n : N) : str :=
  [ ord "\"; ord "u";
    hex_digit (N.shiftr n 12 mod 16); hex_digit (N.shiftr n 8 mod 16);
    hex_digit (N.shiftr n 4 mod 16); hex_digit (n mod 16) ].

(** The replacement of one character by [encode_basestring_ascii]: the
    characters from space to tilde other than the quote and the backslash
    stay, the rest is escaped. *)
Definition escape_char (c : codepoint) : str :=
  if (ord " " <=? c) && (c <=? ord "~") && negb (c =? QUOTE) && negb (c =? ord "\")
  then [c]
  else if c =? QUOTE then [ord "\"; QUOTE]
  else if c =? ord "\" then [ord "\"; ord "\"]
  else if c =? 8 then [ord "\"; ord "b"]
  else if c =? 12 then [ord "\"; ord "f"]
  else if c =? 10 then [ord "\"; ord "n"]
  else if c =? 13 then [ord "\"; ord "r"]
  else if c =? 9 then [ord "\"; ord "t"]
  else if c <? 0x10000 then u_escape c
  else
    let n := c - 0x10000 in
    let s1 := N.lor 0xd800 (N.land (N.shiftr n 10) 0x3ff) in
    let s2 := N.lor 0xdc00 (N.land n 0x3ff) in
    u_escape s1 ++ u_escape s2.

Definition encode_basestring_ascii (s : str) : str :=
  QUOTE :: flat_map escape_char s ++ [QUOTE].

(** [sep.join(chunks)]. *)
Fixpoint join (sep : str) (chunks : list str) : str :=
  match chunks with
  | [] => []
  | [c] => c
  | c :: r => c ++ sep ++ join sep r
  end.

(** The members of a dict, and the attributes of an instance that
    [IgnoreNoneJsonEncoder.default] keeps: those that are not [None]. *)
Definition encode_members (encode : value -> str) : list (str * value) -> list str :=
  fix members (d : list (str * value)) : list str :=
    match d with
    | [] => []
    | (k, v) :: r => (encode_basestring_ascii k ++ ": " ++ encode v) :: members r
    end.

Definition encode_attributes (encode : value -> str) : list (str * value) -> list str :=
  fix attributes (a : list (str * value)) : list str :=
    match a with
    | [] => []
    | (k, v) :: r =>
        if is_none v then attributes r
        else (encode_basestring_ascii k ++ ": " ++ encode v) :: attributes r
    end.

(** The text produced for [o].  An instance is not serializable by itself:
    the encoder calls [IgnoreNoneJsonEncoder.default], which answers the dict
    of the attributes that are not [None], and encodes that dict
    ([iterencode_default] states it). *)
Fixpoint iterencode (o : value) : str :=
  match o with
  | VNone => "null"
  | VBool true => "true"
  | VBool false => "false"
  | VInt z => int_repr z
  | VFloat lit => lit
  | VStr s => encode_basestring_ascii s
  | VList l => "[" ++ join ", " (map iterencode l) ++ "]"
  | VDict d => "{" ++ join ", " (encode_members iterencode d) ++ "}"
  | VObj a => "{" ++ join ", " (encode_attributes iterencode a) ++ "}"
  end.

Definition json_dumps (o : value) : str := iterencode o.

(** ** The [json] module: decoding

    [json.loads(s)] on text: the grammar of [json.scanner] and
    [json.decoder] (strict mode), with the undecodable inputs all answering
    [ValueError] ([JSONDecodeError] is a subclass).  The limits of the
    interpreter (recursion depth, digits of an integer) are outside the
    model. *)

Definition is_ws (c : codepoint) : bool :=
  (c =? ord " ") || (c =? 9) || (c =? 10) || (c =? 13).

Fixpoint skip_ws (s : str) : str :=
  match s with
  | [] => []
  | c :: r => if is_ws c then skip_ws r else s
  end.

Fixpoint strip_prefix (p s : str) : option str :=
  match p, s with
  | [], _ => Some s
  | _ :: _, [] => None
  | a :: p', b :: s' => if a =? b then strip_prefix p' s' else None
  end.

Definition hex_value (c : codepoint) : option N :=
  if is_digit c then Some (c - ord "0")
  else if (ord "a" <=? c) && (c <=? ord "f") then Some (c - ord "a" + 10)
  else if (ord "A" <=? c) && (c <=? ord "F") then Some (c - ord "A" + 10)
  else None.

Definition decode_uXXXX (h1 h2 h3 h4 : codepoint) : option N :=
  match hex_value h1, hex_value h2, hex_value h3, hex_value h4 with
  | Some a, Some b, Some c, Some d => Some (((a * 16 + b) * 16 + c) * 16 + d)
  | _, _, _, _ => None
  end.

(** The [BACKSLASH] table of the decoder. *)
Definition backslash (c : codepoint) : option codepoint :=
  if c =? QUOTE then Some QUOTE
  else if c =? ord "\" then Some (ord "\")
  else if c =? ord "/" then Some (ord "/")
  else if c =? ord "b" then Some 8
  else if c =? ord "f" then Some 12
  else if c =? ord "n" then Some 10
  else if c =? ord "r" then Some 13
  else if c =? ord "t" then Some 9
  else None.

Definition is_high_surrogate (u : N) : bool := (0xd800 <=? u) && (u <=? 0xdbff).
Definition is_low_surrogate (u : N) : bool := (0xdc00 <=? u) && (u <=? 0xdfff).

Definition join_surrogates (u u2 : N) : N :=
  0x10000 + N.lor (N.shiftl (u - 0xd800) 10) (u2 - 0xdc00).

Definition cons_char (c : codepoint) (r : option (str * str)) : option (str * str) :=
  match r with
  | Some (t, rest) => Some (c :: t, rest)
  | None => None
  end.

(** [scanstring]: the text after an opening quote, up to the closing quote.
    [None] stands for the errors (unterminated string, control character,
    invalid escape). *)
Fixpoint scanstring (s : str) : option (str * str) :=
  match s with
  | [] => None
  | c :: r =>
      if c =? QUOTE then Some ([], r)
      else if c =? ord "\" then
        match r with
        | [] => None
        | e :: r1 =>
            if e =? ord "u" then
              match r1 with
              | h1 :: h2 :: h3 :: h4 :: r2 =>
                  match decode_uXXXX h1 h2 h3 h4 with
                  | None => None
                  | Some uni =>
                      if is_high_surrogate uni then
                        match r2 with
                        | b :: u :: g1 :: g2 :: g3 :: g4 :: r3 =>
                            if (b =? ord "\") && (u =? ord "u") then
                              match decode_uXXXX g1 g2 g3 g4 with
                              | None => None
                              | Some uni2 =>
                                  if is_low_surrogate uni2
                                  then cons_char (join_surrogates uni uni2) (scanstring r3)
                                  else cons_char uni (scanstring r2)
                              end
                            else cons_char uni (scanstring r2)
                        | _ => cons_char uni (scanstring r2)
                        end
                      else cons_char uni (scanstring r2)
                  end
              | _ => None
              end
            else
              match backslash e with
              | Some ch => cons_char ch (scanstring r1)
              | None => None
              end
        end
      else if c <? 32 then None
      else cons_char c (scanstring r)
  end.

(** *** Numbers: [NUMBER_RE] *)

Fixpoint span_digits (s : str) : str * str :=
  match s with
  | [] => ([], [])
  | c :: r =>
      if is_digit c then let (d, r') := span_digits r in (c :: d, r')
      else ([], s)
  end.

(** First group: an optional minus sign, then a lone zero or a digit from 1 to
    9 followed by any digits. *)
Definition match_integer (s : str) : option (str * str) :=
  let (sign, s1) :=
    match s with
    | c :: r => if c =? ord "-" then ([ord "-"], r) else ([], s)
    | [] => ([], s)
    end in
  match s1 with
  | [] => None
  | c :: r =>
      if c =? ord "0" then Some (sign ++ [c], r)
      else if is_digit c then let (d, r') := span_digits r in Some (sign ++ c :: d, r')
      else None
  end.

(** Second group, optional: a dot and at least one digit. *)
Definition match_frac (s : str) : str * str :=
  match s with
  | c :: r =>
      if c =? ord "." then
        match span_digits r with
        | ([], _) => ([], s)
        | (d, r') => (c :: d, r')
        end
      else ([], s)
  | [] => ([], s)
  end.

(** Third group, optional: e or E, an optional sign and at least one digit. *)
Definition match_exp (s : str) : str * str :=
  match s with
  | c :: r =>
      if (c =? ord "e") || (c =? ord "E") then
        let (sign, r1) :=
          match r with
          | g :: r0 => if (g =? ord "-") || (g =? ord "+") then ([g], r0) else ([], r)
          | [] => ([], r)
          end in
        match span_digits r1 with
        | ([], _) => ([], s)
        | (d, r') => (c :: sign ++ d, r')
        end
      else ([], s)
  | [] => ([], s)
  end.

Definition digit_of (c : codepoint) (u : Decimal.uint) : Decimal.uint :=
  match c - ord "0" with
  | 0 => D0 u | 1 => D1 u | 2 => D2 u | 3 => D3 u | 4 => D4 u
  | 5 => D5 u | 6 => D6 u | 7 => D7 u | 8 => D8 u | _ => D9 u
  end.

Fixpoint uint_of_digits (s : str) : Decimal.uint :=
  match s with
  | [] => Nil
  | c :: r => digit_of c (uint_of_digits r)
  end.

(** [int(integer)] on the text matched by the first group. *)
Definition int_of_literal (s : str) : Z :=
  match s with
  | c :: r =>
      if c =? ord "-" then Z.of_int (Decimal.Neg (uint_of_digits r))
      else Z.of_int (Decimal.Pos (uint_of_digits s))
  | [] => 0%Z
  end.

(** A number: an [int] when there is neither fraction nor exponent, a [float]
    otherwise. *)
Definition match_number (s : str) : option (value * str) :=
  match match_integer s with
  | None => None
  | Some (integer, s1) =>
      let (frac, s2) := match_frac s1 in
      let (exp, s3) := match_exp s2 in
      match frac, exp with
      | [], [] => Some (VInt (int_of_literal integer), s3)
      | _, _ => Some (VFloat (integer ++ frac ++ exp), s3)
      end
  end.

(** *** Values *)

Inductive scan (A : Type) : Type :=
| Scanned (a : A) (rest : str)
| Invalid
| OutOfFuel.
Arguments Scanned {A} a rest.
Arguments Invalid {A}.
Arguments OutOfFuel {A}.

(** The rest of [scan_once]: the constants and the numbers, in the order the
    scanner tries them. *)
Definition scan_atom (s : str) : scan value :=
  match strip_prefix "null" s, strip_prefix "true" s, strip_prefix "false" s with
  | Some rest, _, _ => Scanned VNone rest
  | None, Some rest, _ => Scanned (VBool true) rest
  | None, None, Some rest => Scanned (VBool false) rest
  | None, None, None =>
      match match_number s with
      | Some (v, rest) => Scanned v rest
      | None =>
          match strip_prefix "NaN" s, strip_prefix "Infinity" s,
                strip_prefix "-Infinity" s with
          | Some rest, _, _ => Scanned (VFloat "NaN") rest
          | None, Some rest, _ => Scanned (VFloat "Infinity") rest
          | None, None, Some rest => Scanned (VFloat "-Infinity") rest
          | None, None, None => Invalid
          end
      end
  end.

(** [scan_once] reads one value; [array_items] reads the items of a non-empty
    array up to its closing bracket and [object_members] the members of a
    non-empty object up to its closing brace.  The recursion of the decoder
    is bounded by [fuel]; [json_loads] passes enough of it
    ([scan_once_fuel]). *)
Fixpoint scan_once (fuel : nat) (s : str) {struct fuel} : scan value :=
  match fuel with
  | O => OutOfFuel
  | S fuel' =>
      match s with
      | [] => Invalid
      | c :: r =>
          if c =? QUOTE then
            match scanstring r with
            | Some (t, rest) => Scanned (VStr t) rest
            | None => Invalid
            end
          else if c =? ord "{" then
            match skip_ws r with
            | [] => Invalid
            | c1 :: r1 =>
                if c1 =? ord "}" then Scanned (VDict []) r1
                else
                  match object_members fuel' (c1 :: r1) with
                  | Scanned pairs rest => Scanned (VDict (dict_of_pairs pairs)) rest
                  | Invalid => Invalid
                  | OutOfFuel => OutOfFuel
                  end
            end
          else if c =? ord "[" then
            match skip_ws r with
            | [] => Invalid
            | c1 :: r1 =>
                if c1 =? ord "]" then Scanned (VList []) r1
                else
                  match array_items fuel' (c1 :: r1) with
                  | Scanned items rest => Scanned (VList items) rest
                  | Invalid => Invalid
                  | OutOfFuel => OutOfFuel
                  end
            end
          else scan_atom s
      end
  end

with array_items (fuel : nat) (s : str) {struct fuel} : scan (list value) :=
  match fuel with
  | O => OutOfFuel
  | S fuel' =>
      match scan_once fuel' s with
      | Scanned v r =>
          match skip_ws r with
          | [] => Invalid
          | c :: r1 =>
              if c =? ord "]" then Scanned [v] r1
              else if c =? ord "," then
                match array_items fuel' (skip_ws r1) with
                | Scanned items rest => Scanned (v :: items) rest
                | Invalid => Invalid
                | OutOfFuel => OutOfFuel
                end
              else Invalid
          end
      | Invalid => Invalid
      | OutOfFuel => OutOfFuel
      end
  end

with object_members (fuel : nat) (s : str) {struct fuel} : scan (list (str * value)) :=
  match fuel with
  | O => OutOfFuel
  | S fuel' =>
      match s with
      | [] => Invalid
      | c :: r =>
          if c =? QUOTE then
            match scanstring r with
            | None => Invalid
            | Some (key, r1) =>
                match skip_ws r1 with
                | [] => Invalid
                | c1 :: r2 =>
                    if c1 =? ord ":" then
                      match scan_once fuel' (skip_ws r2) with
                      | Scanned v r3 =>
                          match skip_ws r3 with
                          | [] => Invalid
                          | c3 :: r4 =>
                              if c3 =? ord "}" then Scanned [(key, v)] r4
                              else if c3 =? ord "," then
                                match object_members fuel' (skip_ws r4) with
                                | Scanned pairs rest => Scanned ((key, v) :: pairs) rest
                                | Invalid => Invalid
                                | OutOfFuel => OutOfFuel
                                end
                              else Invalid
                          end
                      | Invalid => Invalid
                      | OutOfFuel => OutOfFuel
                      end
                    else Invalid
                end
            end
          else Invalid
      end
  end.

Definition scan_fuel (s : str) : nat := (2 * List.length s + 2)%nat.

(** [json.loads(s)]: one value between optional white space, nothing after. *)
Definition json_loads (s : str) : outcome value :=
  match scan_once (scan_fuel s) (skip_ws s) with
  | Scanned v rest =>
      match skip_ws rest with
      | [] => Returns v
      | _ :: _ => Raises ValueError
      end
  | Invalid => Raises ValueError
  | OutOfFuel => Raises ValueError
  end.



(** ** [const.py] *)

Definition TOPIC_PREFIX : str := "cloudapp/QBUSMQTTGW".

Definition KEY_OUTPUT_ACTION : str := "action".
Definition KEY_OUTPUT_ID : str := "id".
Definition KEY_OUTPUT_PROPERTIES : str := "properties".
Definition KEY_OUTPUT_TYPE : str := "type".

Definition KEY_PROPERTIES_CURRENT_TEMPERATURE : str := "currTemp".
Definition KEY_PROPERTIES_REGIME : str := "currRegime".
Definition KEY_PROPERTIES_SET_TEMPERATURE : str := "setTemp".
Definition KEY_PROPERTIES_SHUTTER_POSITION : str := "shutterPosition".
Definition KEY_PROPERTIES_SLAT_POSITION : str := "slatPosition".
Definition KEY_PROPERTIES_STATE : str := "state".
Definition KEY_PROPERTIES_VALUE : str := "value".

(** ** [state.py] *)

(** The members of a [StrEnum] are strings. *)
Module StateType.
Definition EVENT : str := "event".
Definition STATE : str := "state".
End StateType.

Module StateAction.
Definition ACTIVE : str := "active".
End StateAction.

Module QbusMqttState.

(** The four attributes of an instance, in the order [__init__] assigns
    them. *)
Record t : Type := new { id : value; type : value; action : value; properties : value }.

Definition set_id (self : t) (v : value) : t :=
  new v (type self) (action self) (properties self).
Definition set_type (self : t) (v : value) : t :=
  new (id self) v (action self) (properties self).
Definition set_action (self : t) (v : value) : t :=
  new (id self) (type self) v (properties self).
Definition set_properties (self : t) (v : value) : t :=
  new (id self) (type self) (action self) v.

Definition __dict__ (self : t) : list (str * value) :=
  [ (str_of_string "id", id self); (str_of_string "type", type self);
    (str_of_string "action", action self);
    (str_of_string "properties", properties self) ].

Definition object (self : t) : value := VObj (__dict__ self).

(** [QbusMqttState(data, id=..., type=..., action=...)]; an argument left
    out is [None]. *)
Definition __init__ (data : value) (id type action : value) : outcome t :=
  let self := new (VStr []) (VStr []) VNone VNone in
  self <- (if negb (is_none data) then
             i <- py_get data KEY_OUTPUT_ID (VStr []) ;;
             t <- py_get data KEY_OUTPUT_TYPE (VStr []) ;;
             a <- py_get data KEY_OUTPUT_ACTION VNone ;;
             p <- py_get data KEY_OUTPUT_PROPERTIES VNone ;;
             Returns (new i t a p)
           else Returns self) ;;
  let self := if negb (is_none id) then set_id self id else self in
  let self := if negb (is_none type) then set_type self type else self in
  let self := if negb (is_none action) then set_action self action else self in
  Returns self.

Definition read_property (self : t) (key : str) (default : value) : outcome value :=
  if truthy (properties self) then py_get (properties self) key default
  else Returns default.

Definition write_property (self : t) (key : str) (v : value) : outcome t :=
  let self := if is_none (properties self) then set_properties self (VDict []) else self in
  p <- py_setitem (properties self) key v ;;
  Returns (set_properties self p).

End QbusMqttState.

Module QbusMqttOnOffState.
Definition __init__ (data id type : value) : outcome QbusMqttState.t :=
  QbusMqttState.__init__ data id type VNone.

Definition read_value (self : QbusMqttState.t) : outcome value :=
  QbusMqttState.read_property self KEY_PROPERTIES_VALUE (VBool false).

Definition write_value (self : QbusMqttState.t) (on : value) : outcome QbusMqttState.t :=
  QbusMqttState.write_property self KEY_PROPERTIES_VALUE on.
End QbusMqttOnOffState.

Module QbusMqttAnalogState.
Definition __init__ (data id type : value) : outcome QbusMqttState.t :=
  QbusMqttState.__init__ data id type VNone.

Definition read_percentage (self : QbusMqttState.t) : outcome value :=
  QbusMqttState.read_property self KEY_PROPERTIES_VALUE (VInt 0).

Definition write_percentage (self : QbusMqttState.t) (percentage : value)
  : outcome QbusMqttState.t :=
  QbusMqttState.write_property self KEY_PROPERTIES_VALUE percentage.

Definition write_on_off (self : QbusMqttState.t) (on : value) : QbusMqttState.t :=
  QbusMqttState.set_action self (VStr (if truthy on then "on" else "off")).
End QbusMqttAnalogState.

Module QbusMqttShutterState.
Definition __init__ (data id type : value) : outcome QbusMqttState.t :=
  QbusMqttState.__init__ data id type VNone.

Definition read_state (self : QbusMqttState.t) : outcome value :=
  QbusMqttState.read_property self KEY_PROPERTIES_STATE VNone.

Definition write_state (self : QbusMqttState.t) (state : value) : outcome QbusMqttState.t :=
  QbusMqttState.write_property self KEY_PROPERTIES_STATE state.

Definition read_position (self : QbusMqttState.t) : outcome value :=
  QbusMqttState.read_property self KEY_PROPERTIES_SHUTTER_POSITION VNone.

Definition write_position (self : QbusMqttState.t) (percentage : value)
  : outcome QbusMqttState.t :=
  QbusMqttState.write_property self KEY_PROPERTIES_SHUTTER_POSITION percentage.

Definition read_slat_position (self : QbusMqttState.t) : outcome value :=
  QbusMqttState.read_property self KEY_PROPERTIES_SLAT_POSITION VNone.

Definition write_slat_position (self : QbusMqttState.t) (percentage : value)
  : outcome QbusMqttState.t :=
  QbusMqttState.write_property self KEY_PROPERTIES_SLAT_POSITION percentage.
End QbusMqttShutterState.

Module QbusMqttThermoState.
Definition __init__ (data id type : value) : outcome QbusMqttState.t :=
  QbusMqttState.__init__ data id type VNone.

Definition read_current_temperature (self : QbusMqttState.t) : outcome value :=
  QbusMqttState.read_property self KEY_PROPERTIES_CURRENT_TEMPERATURE VNone.

Definition read_set_temperature (self : QbusMqttState.t) : outcome value :=
  QbusMqttState.read_property self KEY_PROPERTIES_SET_TEMPERATURE VNone.

Definition write_set_temperature (self : QbusMqttState.t) (temperature : value)
  : outcome QbusMqttState.t :=
  QbusMqttState.write_property self KEY_PROPERTIES_SET_TEMPERATURE temperature.

Definition read_regime (self : QbusMqttState.t) : outcome value :=
  QbusMqttState.read_property self KEY_PROPERTIES_REGIME VNone.

Definition write_regime (self : QbusMqttState.t) (regime : value) : outcome QbusMqttState.t :=
  QbusMqttState.write_property self KEY_PROPERTIES_REGIME regime.
End QbusMqttThermoState.

(** A class as [deserialize] uses it: its [__name__] and the call
    [state_cls(data)] with one positional argument. *)
Record pyclass (T : Type) : Type := { __name__ : str; __call__ : value -> outcome T }.
Arguments __name__ {T} _.
Arguments __call__ {T} _ _.

Definition QbusMqttState_cls : pyclass QbusMqttState.t :=
  {| __name__ := "QbusMqttState";
     __call__ := fun data => QbusMqttState.__init__ data VNone VNone VNone |}.
Definition QbusMqttOnOffState_cls : pyclass QbusMqttState.t :=
  {| __name__ := "QbusMqttOnOffState";
     __call__ := fun data => QbusMqttOnOffState.__init__ data VNone VNone |}.
Definition QbusMqttAnalogState_cls : pyclass QbusMqttState.t :=
  {| __name__ := "QbusMqttAnalogState";
     __call__ := fun data => QbusMqttAnalogState.__init__ data VNone VNone |}.
Definition QbusMqttShutterState_cls : pyclass QbusMqttState.t :=
  {| __name__ := "QbusMqttShutterState";
     __call__ := fun data => QbusMqttShutterState.__init__ data VNone VNone |}.
Definition QbusMqttThermoState_cls : pyclass QbusMqttState.t :=
  {| __name__ := "QbusMqttThermoState";
     __call__ := fun data => QbusMqttThermoState.__init__ data VNone VNone |}.

(** The state class and its four variants. *)
Definition state_classes : list (pyclass QbusMqttState.t) :=
  [ QbusMqttState_cls; QbusMqttOnOffState_cls; QbusMqttAnalogState_cls;
    QbusMqttShutterState_cls; QbusMqttThermoState_cls ].

(** *** Device states *)

Definition KEY_DEVICE_CONNECTABLE : str := "connectable".
Definition KEY_DEVICE_CONNECTED : str := "connected".
Definition KEY_DEVICE_ID : str := "id".
Definition KEY_DEVICE_STATE_PROPERTIES : str := "properties".

Module QbusMqttDeviceStateProperties.

Record t : Type := new { connectable : value; connected : value }.

Definition __init__ (data : value) : outcome t :=
  a <- py_get data KEY_DEVICE_CONNECTABLE VNone ;;
  b <- py_get data KEY_DEVICE_CONNECTED VNone ;;
  Returns (new a b).

Definition __dict__ (self : t) : list (str * value) :=
  [ (str_of_string "connectable", connectable self);
    (str_of_string "connected", connected self) ].

Definition object (self : t) : value := VObj (__dict__ self).

End QbusMqttDeviceStateProperties.

Module QbusMqttDeviceState.

(** The attribute [properties] is [None] or an instance of
    [QbusMqttDeviceStateProperties]. *)
Record t : Type :=
  new { id : value; properties : option QbusMqttDeviceStateProperties.t }.

Definition __init__ (data : value) : outcome t :=
  i <- py_get data KEY_DEVICE_ID VNone ;;
  properties <- py_get data KEY_DEVICE_STATE_PROPERTIES VNone ;;
  p <- (if negb (is_none properties)
        then q <- QbusMqttDeviceStateProperties.__init__ properties ;; Returns (Some q)
        else Returns None) ;;
  Returns (new i p).

Definition __dict__ (self : t) : list (str * value) :=
  [ (str_of_string "id", id self);
    (str_of_string "properties",
     match properties self with
     | Some p => QbusMqttDeviceStateProperties.object p
     | None => VNone
     end) ].

Definition object (self : t) : value := VObj (__dict__ self).

End QbusMqttDeviceState.


(** ** [discovery.py] *)

Module discovery.

(** Modelled from the spec: [discovery.py] is not among the sources.  The
    factory reads of a device only its [id], and of a discovery only its
    [devices], a sequence of devices. *)
Record QbusMqttDevice : Type := { id : str }.

Record QbusDiscovery : Type := { devices : list QbusMqttDevice }.

(** Modelled from the spec: a discovery document is an object whose
    ["devices"] member is the list of the device objects, each with its
    ["id"]; a document of another shape is outside the schema and the
    construction raises. *)
Definition device_of (item : value) : outcome QbusMqttDevice :=
  i <- py_get item "id" VNone ;;
  match i with
  | VStr s => Returns {| id := s |}
  | _ => Raises TypeError
  end.

Fixpoint devices_of (items : list value) : outcome (list QbusMqttDevice) :=
  match items with
  | [] => Returns []
  | item :: r =>
      d <- device_of item ;;
      ds <- devices_of r ;;
      Returns (d :: ds)
  end.

Definition QbusDiscovery_cls : pyclass QbusDiscovery :=
  {| __name__ := "QbusDiscovery";
     __call__ := fun data =>
       l <- py_get data "devices" (VList []) ;;
       match l with
       | VList items => ds <- devices_of items ;; Returns {| devices := ds |}
       | _ => Raises TypeError
       end |}.

End discovery.

(** ** [factory.py] *)

(** An argument with a default value: [None] when the caller leaves it out. *)
Definition default_arg {A} (given : option A) (default : A) : A :=
  match given with
  | Some a => a
  | None => default
  end.

Module QbusMqttTopicFactory.

Definition get_get_config_topic (prefix : option str) : str :=
  let prefix := default_arg prefix TOPIC_PREFIX in
  prefix ++ "/getConfig".

Definition get_config_topic (prefix : option str) : str :=
  let prefix := default_arg prefix TOPIC_PREFIX in
  prefix ++ "/config".

Definition get_get_state_topic (prefix : option str) : str :=
  let prefix := default_arg prefix TOPIC_PREFIX in
  prefix ++ "/getState".

Definition get_device_state_topic (device_id : str) (prefix : option str) : str :=
  let prefix := default_arg prefix TOPIC_PREFIX in
  prefix ++ "/" ++ device_id ++ "/state".

Definition get_device_command_topic (device_id : str) (prefix : option str) : str :=
  let prefix := default_arg prefix TOPIC_PREFIX in
  prefix ++ "/" ++ device_id ++ "/setState".

Definition get_output_command_topic (device_id entity_id : str) (prefix : option str) : str :=
  let prefix := default_arg prefix TOPIC_PREFIX in
  prefix ++ "/" ++ device_id ++ "/" ++ entity_id ++ "/setState".

Definition get_output_state_topic (device_id entity_id : str) (prefix : option str) : str :=
  let prefix := default_arg prefix TOPIC_PREFIX in
  prefix ++ "/" ++ device_id ++ "/" ++ entity_id ++ "/state".

End QbusMqttTopicFactory.

Module IgnoreNoneJsonEncoder.

(** Only an instance has a [__dict__]; for anything else the base class
    raises [TypeError]. *)
Definition default (o : value) : outcome value :=
  match o with
  | VObj attrs => Returns (VDict (filter (fun kv => negb (is_none (snd kv))) attrs))
  | _ => Raises TypeError
  end.

End IgnoreNoneJsonEncoder.

Inductive levelname := WARNING | ERROR.

(** A logging call: the level, the format string and its arguments. *)
Record LogRecord : Type := { level : levelname; msg : str; args : list value }.


Module QbusMqttMessageFactory.

Definition serialize (obj : value) : str := json_dumps obj.

(** A payload is the text of a message (bytes are taken as the text they
    encode), or [None]. *)
Definition deserialize {T} (state_cls : pyclass T) (payload : option str)
  : outcome (option T) * list LogRecord :=
  match payload with
  | None =>
      (Returns None,
       [ {| level := WARNING; msg := "Empty state payload for %s";
            args := [VStr (__name__ state_cls)] |} ])
  | Some text =>
      match json_loads text with
      | Raises ValueError =>
          (Returns None,
           [ {| level := ERROR; msg := "Invalid state payload for %s: %s";
                args := [VStr (__name__ state_cls); VStr text] |} ])
      | Raises e => (Raises e, [])
      | Returns data => (o <- __call__ state_cls data ;; Returns (Some o), [])
      end
  end.

Section ParseDiscovery.
(** The discovery class and its [devices] attribute. *)
Variables (Discovery Device : Type).
Variable QbusDiscovery : pyclass Discovery.
Variable devices : Discovery -> list Device.

Definition parse_discovery (payload : option str)
  : outcome (option Discovery) * list LogRecord :=
  let (result, logged) := deserialize QbusDiscovery payload in
  match result with
  | Raises e => (Raises e, logged)
  | Returns discovery =>
      match discovery with
      | Some d =>
          if (List.length (devices d) =? 0)%nat then
            (Returns None,
             logged ++
             [ {| level := ERROR; msg := "Incomplete discovery payload: %s";
                  args := [match payload with Some text => VStr text | None => VNone end] |} ])
          else (Returns discovery, logged)
      | None => (Returns discovery, logged)
      end
  end.
End ParseDiscovery.

Definition parse_output_state {T} (cls : pyclass T) (payload : option str)
  : outcome (option T) * list LogRecord :=
  deserialize cls payload.




End QbusMqttMessageFactory.

(** ** Words of the specification *)

(** The value stored at [key] in a property map; nothing when the key or the
    map itself is absent. *)
Fixpoint stored_in (d : list (str * value)) (key : str) : option value :=
  match d with
  | [] => None
  | (k, v) :: r => if str_eqb k key then Some v else stored_in r key
  end.

Definition stored (props : value) (key : str) : option value :=
  match props with
  | VDict d => stored_in d key
  | _ => None
  end.

Definition or_default (found : option value) (default : value) : value :=
  match found with
  | Some v => v
  | None => default
  end.

Definition is_map_or_none (v : value) : bool :=
  match v with VDict _ | VNone => true | _ => false end.

(** Whether a [null] occurs in the JSON encoded for [v]: [None] itself, or a
    [null] inside an item, a dict entry or an attribute that is emitted. *)
Fixpoint has_null (v : value) : bool :=
  match v with
  | VNone => true
  | VBool _ | VInt _ | VFloat _ | VStr _ => false
  | VList l => existsb has_null l
  | VDict d => existsb (fun kv => has_null (snd kv)) d
  | VObj a => existsb (fun kv => negb (is_none (snd kv)) && has_null (snd kv)) a
  end.




(** *** What the round trip preserves *)

(** A code point that is a Unicode scalar value (no surrogate). *)
Definition scalar_value (c : codepoint) : bool :=
  (c <? 0x110000) && negb ((0xd800 <=? c) && (c <=? 0xdfff)).

Definition valid_str (s : str) : bool := forallb scalar_value s.

(** The text of a float: one of the three constants, or a number literal with
    a fraction or an exponent. *)
Definition float_literal (lit : str) : bool :=
  str_eqb lit "NaN" || str_eqb lit "Infinity" || str_eqb lit "-Infinity" ||
  match match_number lit with
  | Some (VFloat l, []) => str_eqb l lit
  | _ => false
  end.

Fixpoint distinct (keys : list str) : bool :=
  match keys with
  | [] => true
  | k :: r => negb (existsb (str_eqb k) r) && distinct r
  end.

(** The values made of numbers, strings, booleans, [None], lists and maps:
    what [json.loads] can answer.  The keys of a map are distinct, as in any
    dict. *)
Fixpoint jsonable (v : value) : bool :=
  match v with
  | VNone | VBool _ | VInt _ => true
  | VFloat lit => float_literal lit
  | VStr s => valid_str s
  | VList l => forallb jsonable l
  | VDict d =>
      distinct (map fst d) &&
      forallb (fun kv => valid_str (fst kv) && jsonable (snd kv)) d
  | VObj _ => false
  end.


(** The text after a number does not continue it. *)
Definition number_end (rest : str) : bool :=
  match rest with
  | [] => true
  | c :: _ =>
      negb (is_digit c || (c =? ord ".") || (c =? ord "e") || (c =? ord "E")
            || (c =? ord "+") || (c =? ord "-"))
  end.

(** The number of values in [v], each item and entry counted once more: a
    bound on the recursion of the decoder on the text of [v]. *)
Fixpoint size (v : value) : nat :=
  match v with
  | VList l => S (fold_right (fun x n => S (size x + n)) O l)
  | VDict d => S (fold_right (fun kv n => S (size (snd kv) + n)) O d)
  | VObj a => S (fold_right (fun kv n => S (size (snd kv) + n)) O a)
  | _ => 1
  end.

(** *** Notions for the proof that the decoder inverts the encoder *)

(** The first character of an encoded value is neither white space nor a
    closing bracket. *)
Definition value_start (c : codepoint) : bool :=
  negb (is_ws c) && negb (c =? ord "]") && negb (c =? ord "}").

(** The recursion needed for the items of an array or the members of an
    object. *)
Definition items_size (l : list value) : nat :=
  fold_right (fun x n => S (size x + n)) O l.

Definition members_size (d : list (str * value)) : nat :=
  fold_right (fun kv n => S (size (snd kv) + n)) O d.

(** [scan_once] reads [v] back from its text, whatever follows. *)
Definition decodes (v : value) : Prop :=
  forall (fuel : nat) (rest : str),
    (size v <= fuel)%nat -> number_end rest = true ->
    scan_once fuel (iterencode v ++ rest) = Scanned v rest.

(** *** More notions *)




(** The entries of a property map; none when the map is absent. *)
Definition entries (props : value) : list (str * value) :=
  match props with
  | VDict d => d
  | _ => []
  end.

(** *** Example states *)

Definition state_with_null_property : QbusMqttState.t :=
  QbusMqttState.new (VStr "O1") (VStr "state") VNone
    (VDict [ (str_of_string "value", VNone) ]).

Definition analog_state_at_40 : QbusMqttState.t :=
  QbusMqttState.new (VStr "O1") (VStr []) VNone
    (VDict [ (str_of_string "value", VInt 40); (str_of_string "state", VStr "up") ]).

Definition thermo_state : QbusMqttState.t :=
  QbusMqttState.new (VStr "UL15") (VStr "state") VNone
    (VDict [ (str_of_string "currTemp", VFloat "21.5");
             (str_of_string "setTemp", VInt 22);
             (str_of_string "currRegime", VStr "MANUEEL");
             (str_of_string "nested",
              VDict [ (str_of_string "a", VList [VInt (-1); VBool true]) ]) ]).

(** * Properties *)

(** ** Topic factory *)

(** C9: the topic factory returns the literal templates for every prefix,
    device id and output id; the default prefix is "cloudapp/QBUSMQTTGW". *)
Theorem topic_factory_templates :
  forall p d o : str,
    QbusMqttTopicFactory.get_get_config_topic (Some p) = p ++ "/getConfig" /\
    QbusMqttTopicFactory.get_config_topic (Some p) = p ++ "/config" /\
    QbusMqttTopicFactory.get_get_state_topic (Some p) = p ++ "/getState" /\
    QbusMqttTopicFactory.get_device_state_topic d (Some p) = p ++ "/" ++ d ++ "/state" /\
    QbusMqttTopicFactory.get_device_command_topic d (Some p) = p ++ "/" ++ d ++ "/setState" /\
    QbusMqttTopicFactory.get_output_command_topic d o (Some p)
      = p ++ "/" ++ d ++ "/" ++ o ++ "/setState" /\
    QbusMqttTopicFactory.get_output_state_topic d o (Some p)
      = p ++ "/" ++ d ++ "/" ++ o ++ "/state" /\
    QbusMqttTopicFactory.get_output_command_topic "D1" "O2" (Some (str_of_string "cloudapp/QBUSMQTTGW"))
      = "cloudapp/QBUSMQTTGW/D1/O2/setState" /\
    TOPIC_PREFIX = "cloudapp/QBUSMQTTGW" /\
    QbusMqttTopicFactory.get_get_config_topic None = "cloudapp/QBUSMQTTGW/getConfig" /\
    QbusMqttTopicFactory.get_config_topic None = "cloudapp/QBUSMQTTGW/config" /\
    QbusMqttTopicFactory.get_get_state_topic None = "cloudapp/QBUSMQTTGW/getState" /\
    QbusMqttTopicFactory.get_device_state_topic d None = "cloudapp/QBUSMQTTGW/" ++ d ++ "/state" /\
    QbusMqttTopicFactory.get_device_command_topic d None
      = "cloudapp/QBUSMQTTGW/" ++ d ++ "/setState" /\
    QbusMqttTopicFactory.get_output_command_topic d o None
      = "cloudapp/QBUSMQTTGW/" ++ d ++ "/" ++ o ++ "/setState" /\
    QbusMqttTopicFactory.get_output_state_topic d o None
      = "cloudapp/QBUSMQTTGW/" ++ d ++ "/" ++ o ++ "/state".
Proof.
  intros p d o.
  repeat split; reflexivity.
Qed.

(** ** State model *)

Lemma init_from_mapping (d : list (str * value)) (id type action : value) :
  QbusMqttState.__init__ (VDict d) id type action =
  Returns
    (QbusMqttState.new
       (if is_none id then dict_get d KEY_OUTPUT_ID (VStr []) else id)
       (if is_none type then dict_get d KEY_OUTPUT_TYPE (VStr []) else type)
       (if is_none action then dict_get d KEY_OUTPUT_ACTION VNone else action)
       (dict_get d KEY_OUTPUT_PROPERTIES VNone)).
Proof.
  unfold QbusMqttState.__init__; simpl.
  destruct id, type, action; reflexivity.
Qed.

Lemma init_without_mapping (id type action : value) :
  QbusMqttState.__init__ VNone id type action =
  Returns
    (QbusMqttState.new
       (if is_none id then VStr [] else id)
       (if is_none type then VStr [] else type)
       action
       VNone).
Proof.
  unfold QbusMqttState.__init__; simpl.
  destruct id, type, action; reflexivity.
Qed.

Lemma dict_get_stored (d : list (str * value)) (key : str) (default : value) :
  dict_get d key default = or_default (stored_in d key) default.
Proof.
  induction d as [|[k w] r IH]; simpl; [reflexivity|].
  destruct (str_eqb k key); [reflexivity | exact IH].
Qed.

(** C10: a keyword argument that is not [None] overrides the value taken from
    the mapping, and one left as [None] keeps the mapping's value or, without
    a mapping or without the key, the default; the variants pass [id] and
    [type] on to the same constructor. *)
Theorem init_keywords_override_mapping :
  forall (d : list (str * value)) (id type action : value),
    QbusMqttState.__init__ (VDict d) id type action =
      Returns
        (QbusMqttState.new
           (if is_none id then or_default (stored_in d "id") (VStr []) else id)
           (if is_none type then or_default (stored_in d "type") (VStr []) else type)
           (if is_none action then or_default (stored_in d "action") VNone else action)
           (or_default (stored_in d "properties") VNone)) /\
    QbusMqttState.__init__ VNone id type action =
      Returns
        (QbusMqttState.new (if is_none id then VStr [] else id)
           (if is_none type then VStr [] else type) action VNone) /\
    QbusMqttOnOffState.__init__ (VDict d) id type
      = QbusMqttState.__init__ (VDict d) id type VNone /\
    QbusMqttAnalogState.__init__ (VDict d) id type
      = QbusMqttState.__init__ (VDict d) id type VNone /\
    QbusMqttShutterState.__init__ (VDict d) id type
      = QbusMqttState.__init__ (VDict d) id type VNone /\
    QbusMqttThermoState.__init__ (VDict d) id type
      = QbusMqttState.__init__ (VDict d) id type VNone.
Proof.
  intros d id type action.
  repeat split; try reflexivity.
  - rewrite init_from_mapping, !dict_get_stored. reflexivity.
  - apply init_without_mapping.
Qed.

(** C3: a mapping that holds the key ["id"] (or ["type"]) with the value
    [None], or with a value that is not a string, leaves that value in the
    attribute: the empty-string default is used for a missing key only. *)
Theorem init_keeps_null_id :
  QbusMqttState.__init__ (VDict [(str_of_string "id", VNone)]) VNone VNone VNone
    = Returns (QbusMqttState.new VNone (VStr []) VNone VNone) /\
  QbusMqttState.__init__ (VDict [(str_of_string "type", VInt 7)]) VNone VNone VNone
    = Returns (QbusMqttState.new (VStr []) (VInt 7) VNone VNone) /\
  QbusMqttMessageFactory.deserialize QbusMqttOnOffState_cls (Some (dq "{'id': null}"))
    = (Returns (Some (QbusMqttState.new VNone (VStr []) VNone VNone)), []).
Proof.
  repeat split; reflexivity.
Qed.

Lemma read_property_stored (self : QbusMqttState.t) (key : str) (default : value) :
  is_map_or_none (QbusMqttState.properties self) = true ->
  QbusMqttState.read_property self key default
    = Returns (or_default (stored (QbusMqttState.properties self) key) default).
Proof.
  unfold QbusMqttState.read_property.
  destruct (QbusMqttState.properties self) as [| | | | | |d|]; simpl;
    try discriminate; intros _; [reflexivity|].
  destruct d as [|kv r]; [reflexivity|].
  now rewrite dict_get_stored.
Qed.

Lemma state_class_call (cls : pyclass QbusMqttState.t) (data : value) :
  In cls state_classes ->
  __call__ cls data = QbusMqttState.__init__ data VNone VNone VNone.
Proof.
  intros H. simpl in H.
  destruct H as [<-|[<-|[<-|[<-|[<-|[]]]]]]; reflexivity.
Qed.

(** C8: for a state of any variant built from a mapping whose ["properties"]
    entry is a map or is absent, each accessor returns the value stored at
    its key, and the declared default when the key or the map is absent. *)
Theorem accessors_read_stored_or_default :
  forall (cls : pyclass QbusMqttState.t) (data : list (str * value)) (self : QbusMqttState.t),
    In cls state_classes ->
    is_map_or_none (dict_get data KEY_OUTPUT_PROPERTIES VNone) = true ->
    __call__ cls (VDict data) = Returns self ->
    let props := dict_get data KEY_OUTPUT_PROPERTIES VNone in
    QbusMqttOnOffState.read_value self
      = Returns (or_default (stored props "value") (VBool false)) /\
    QbusMqttAnalogState.read_percentage self
      = Returns (or_default (stored props "value") (VInt 0)) /\
    QbusMqttShutterState.read_state self
      = Returns (or_default (stored props "state") VNone) /\
    QbusMqttShutterState.read_position self
      = Returns (or_default (stored props "shutterPosition") VNone) /\
    QbusMqttShutterState.read_slat_position self
      = Returns (or_default (stored props "slatPosition") VNone) /\
    QbusMqttThermoState.read_current_temperature self
      = Returns (or_default (stored props "currTemp") VNone) /\
    QbusMqttThermoState.read_set_temperature self
      = Returns (or_default (stored props "setTemp") VNone) /\
    QbusMqttThermoState.read_regime self
      = Returns (or_default (stored props "currRegime") VNone).
Proof.
  intros cls data self Hcls Hmap Hcall props.
  rewrite (state_class_call cls _ Hcls), init_from_mapping in Hcall.
  simpl in Hcall. injection Hcall as <-.
  unfold QbusMqttOnOffState.read_value, QbusMqttAnalogState.read_percentage,
    QbusMqttShutterState.read_state, QbusMqttShutterState.read_position,
    QbusMqttShutterState.read_slat_position,
    QbusMqttThermoState.read_current_temperature,
    QbusMqttThermoState.read_set_temperature, QbusMqttThermoState.read_regime.
  repeat split; apply read_property_stored; exact Hmap.
Qed.

Lemma accessors_read_stored_or_default_witness :
  QbusMqttAnalogState.read_percentage analog_state_at_40 = Returns (VInt 40) /\
  QbusMqttShutterState.read_position analog_state_at_40 = Returns VNone.
Proof.
  pose proof (accessors_read_stored_or_default QbusMqttAnalogState_cls
                [ (str_of_string "id", VStr "O1");
                  (str_of_string "properties",
                   VDict [ (str_of_string "value", VInt 40);
                           (str_of_string "state", VStr "up") ]) ]
                analog_state_at_40
                (or_intror (or_intror (or_introl eq_refl))) eq_refl eq_refl) as H.
  split; [exact (proj1 (proj2 H)) | exact (proj1 (proj2 (proj2 (proj2 H))))].
Defined.

(** ** Message factory: decoding *)



(** C1: a payload that is valid JSON but not an object reaches the class
    constructor, whose call of [get] raises [AttributeError]; the exception
    leaves [deserialize]. *)
Theorem deserialize_non_object_raises :
  QbusMqttMessageFactory.deserialize QbusMqttState_cls (Some (str_of_string "5"))
    = (Raises AttributeError, []) /\
  QbusMqttMessageFactory.deserialize QbusMqttThermoState_cls (Some (str_of_string "[1, 2]"))
    = (Raises AttributeError, []) /\
  QbusMqttMessageFactory.deserialize QbusMqttOnOffState_cls (Some (dq "'on'"))
    = (Raises AttributeError, []).
Proof.
  repeat split; reflexivity.
Qed.





Section ParseDiscoveryProperties.
Variables (Discovery Device : Type).
Variable QbusDiscovery : pyclass Discovery.
Variable devices : Discovery -> list Device.

Let parse := QbusMqttMessageFactory.parse_discovery Discovery Device QbusDiscovery devices.
Let decode := QbusMqttMessageFactory.deserialize QbusDiscovery.

(** C4: [parse_discovery] returns [None] when [deserialize] does, returns
    [None] and logs an error when the decoded discovery has no device, and
    returns the decoded discovery itself when it has at least one. *)
Theorem parse_discovery_cases :
  forall payload : option str,
    (fst (decode payload) = Returns None ->
     parse payload = (Returns None, snd (decode payload))) /\
    (forall d, fst (decode payload) = Returns (Some d) -> devices d = [] ->
       fst (parse payload) = Returns None /\
       exists record, snd (parse payload) = snd (decode payload) ++ [record] /\
                      level record = ERROR) /\
    (forall d, fst (decode payload) = Returns (Some d) -> devices d <> [] ->
       parse payload = (Returns (Some d), snd (decode payload))).
Proof.
  intros payload. subst parse decode.
  unfold QbusMqttMessageFactory.parse_discovery.
  destruct (QbusMqttMessageFactory.deserialize QbusDiscovery payload) as [result logged].
  cbn [fst snd]. split; [|split].
  - intros ->. reflexivity.
  - intros d -> Hd. rewrite Hd. cbn [List.length Nat.eqb fst snd].
    split; [reflexivity|]. eexists. split; reflexivity.
  - intros d -> Hd. destruct (devices d); [now elim Hd | reflexivity].
Qed.
End ParseDiscoveryProperties.

Lemma parse_discovery_cases_witness :
  fst (QbusMqttMessageFactory.parse_discovery _ _ discovery.QbusDiscovery_cls
         discovery.devices None) = Returns None /\
  fst (QbusMqttMessageFactory.parse_discovery _ _ discovery.QbusDiscovery_cls
         discovery.devices (Some (dq "{'devices': []}"))) = Returns None /\
  QbusMqttMessageFactory.parse_discovery _ _ discovery.QbusDiscovery_cls
    discovery.devices (Some (dq "{'devices': [{'id':'d1'}]}"))
    = (Returns (Some {| discovery.devices := [ {| discovery.id := "d1" |} ] |}), []).
Proof.
  split; [|split].
  - exact (f_equal fst
             (proj1 (parse_discovery_cases _ _ discovery.QbusDiscovery_cls
                       discovery.devices None) eq_refl)).
  - exact (proj1 (proj1 (proj2 (parse_discovery_cases _ _ discovery.QbusDiscovery_cls
                                  discovery.devices (Some (dq "{'devices': []}"))))
                    {| discovery.devices := [] |} eq_refl eq_refl)).
  - refine (proj2 (proj2 (parse_discovery_cases _ _ discovery.QbusDiscovery_cls
                            discovery.devices (Some (dq "{'devices': [{'id':'d1'}]}"))))
              {| discovery.devices := [ {| discovery.id := "d1" |} ] |} eq_refl _).
    discriminate.
Defined.

(** ** Message factory: encoding *)

(** The text encoded for an instance is the text encoded for the dict that
    [IgnoreNoneJsonEncoder.default] answers for it. *)
Lemma iterencode_default (attrs : list (str * value)) (members : value) :
  IgnoreNoneJsonEncoder.default (VObj attrs) = Returns members ->
  iterencode (VObj attrs) = iterencode members.
Proof.
  intros H. injection H as <-.
  change (ord "{" :: join ", " (encode_attributes iterencode attrs) ++ "}"
          = ord "{" :: join ", " (encode_members iterencode
                (filter (fun kv => negb (is_none (snd kv))) attrs)) ++ "}").
  do 3 f_equal.
  induction attrs as [|[k v] r IH]; simpl; [reflexivity|].
  destruct (is_none v); simpl; [exact IH | now rewrite IH].
Qed.


(** ** The decoder inverts the encoder *)

(** *** Strings *)

Lemma str_eqb_eq (a b : str) : str_eqb a b = true <-> a = b.
Proof.
  revert b. induction a as [|x a IH]; intros [|y b]; simpl; split; intros H;
    try reflexivity; try discriminate.
  - apply andb_true_iff in H. destruct H as [H1 H2].
    apply N.eqb_eq in H1. apply IH in H2. now subst.
  - injection H as -> ->. rewrite N.eqb_refl. now apply IH.
Qed.

Lemma str_eqb_refl (a : str) : str_eqb a a = true.
Proof. now apply str_eqb_eq. Qed.

Lemma hex_value_hex_digit (n : N) : n < 16 -> hex_value (hex_digit n) = Some n.
Proof.
  intros H. destruct n as [|p]; [reflexivity|].
  destruct p as [p|p|]; try reflexivity;
    (destruct p as [p|p|]; try reflexivity);
    (destruct p as [p|p|]; try reflexivity);
    (destruct p as [p|p|]; try reflexivity); lia.
Qed.

Lemma hex_digits_value (c : N) :
  c < 0x10000 ->
  (((N.shiftr c 12 mod 16) * 16 + N.shiftr c 8 mod 16) * 16 + N.shiftr c 4 mod 16) * 16
    + c mod 16 = c.
Proof.
  intros H. rewrite !N.shiftr_div_pow2.
  change (2 ^ 12) with (16 * 16 * 16). change (2 ^ 8) with (16 * 16).
  change (2 ^ 4) with 16.
  rewrite <- !N.Div0.div_div.
  zify. Z.to_euclidean_division_equations. lia.
Qed.

Lemma decode_u_escape (c : N) :
  c < 0x10000 ->
  decode_uXXXX (hex_digit (N.shiftr c 12 mod 16)) (hex_digit (N.shiftr c 8 mod 16))
    (hex_digit (N.shiftr c 4 mod 16)) (hex_digit (c mod 16)) = Some c.
Proof.
  intros H. unfold decode_uXXXX.
  rewrite !hex_value_hex_digit by (apply N.mod_lt; discriminate).
  now rewrite hex_digits_value.
Qed.

Lemma scanstring_u (h1 h2 h3 h4 : codepoint) (t : str) :
  scanstring (ord "\" :: ord "u" :: h1 :: h2 :: h3 :: h4 :: t) =
  match decode_uXXXX h1 h2 h3 h4 with
  | None => None
  | Some uni =>
      if is_high_surrogate uni then
        match t with
        | b :: u :: g1 :: g2 :: g3 :: g4 :: r3 =>
            if (b =? ord "\") && (u =? ord "u") then
              match decode_uXXXX g1 g2 g3 g4 with
              | None => None
              | Some uni2 =>
                  if is_low_surrogate uni2
                  then cons_char (join_surrogates uni uni2) (scanstring r3)
                  else cons_char uni (scanstring t)
              end
            else cons_char uni (scanstring t)
        | _ => cons_char uni (scanstring t)
        end
      else cons_char uni (scanstring t)
  end.
Proof. reflexivity. Qed.

Lemma lor_shiftl_low (a b : N) : b < 1024 -> N.lor (N.shiftl a 10) b = a * 1024 + b.
Proof.
  intros H.
  rewrite N.shiftl_mul_pow2. change (2 ^ 10) with 1024.
  rewrite <- N.lxor_lor, <- N.add_nocarry_lxor; try reflexivity.
  all: apply N.bits_inj; intros i; rewrite N.land_spec, N.bits_0.
  all: destruct (N.lt_ge_cases i 10) as [Hi|Hi].
  all: try (change 1024 with (2 ^ 10); rewrite N.mul_pow2_bits_low by exact Hi; reflexivity).
  all: rewrite (N.bits_above_log2 b i), andb_false_r; try reflexivity.
  all: destruct b as [|q]; [simpl; lia|].
  all: assert (N.log2 (N.pos q) < 10) by (apply N.log2_lt_pow2; [lia | exact H]); lia.
Qed.

Lemma land_low_bits (n : N) : N.land n 0x3ff = n mod 1024.
Proof. change 0x3ff with (N.ones 10). now rewrite N.land_ones. Qed.

(** The two halves of the pair written for a code point above the basic
    plane, and their reunion. *)
Lemma surrogate_pair (c : N) :
  0x10000 <= c -> c < 0x110000 ->
  let n := c - 0x10000 in
  let s1 := N.lor 0xd800 (N.land (N.shiftr n 10) 0x3ff) in
  let s2 := N.lor 0xdc00 (N.land n 0x3ff) in
  s1 < 0x10000 /\ s2 < 0x10000 /\
  is_high_surrogate s1 = true /\ is_low_surrogate s2 = true /\
  join_surrogates s1 s2 = c.
Proof.
  intros Hlo Hhi n s1 s2.
  assert (Hn : n < 1024 * 1024) by (subst n; lia).
  assert (H1 : s1 = 0xd800 + n / 1024).
  { subst s1. rewrite land_low_bits, N.shiftr_div_pow2. change (2 ^ 10) with 1024.
    assert (n / 1024 < 1024) by (apply N.Div0.div_lt_upper_bound; lia).
    rewrite N.mod_small by assumption.
    change 0xd800 with (N.shiftl 54 10) at 1.
    rewrite lor_shiftl_low by assumption. reflexivity. }
  assert (H2 : s2 = 0xdc00 + n mod 1024).
  { subst s2. rewrite land_low_bits.
    change 0xdc00 with (N.shiftl 55 10) at 1.
    rewrite lor_shiftl_low by (apply N.mod_lt; discriminate). reflexivity. }
  assert (Hq : n / 1024 < 1024) by (apply N.Div0.div_lt_upper_bound; lia).
  assert (Hr : n mod 1024 < 1024) by (apply N.mod_lt; discriminate).
  assert (En : c = 0x10000 + n) by (subst n; lia).
  pose proof (N.div_mod n 1024 ltac:(discriminate)) as Hdm.
  clearbody s1 s2 n. subst s1 s2.
  set (q := n / 1024) in *. set (r := n mod 1024) in *. clearbody q r.
  unfold is_high_surrogate, is_low_surrogate, join_surrogates.
  repeat split; try lia.
  - apply andb_true_iff; split; apply N.leb_le; lia.
  - apply andb_true_iff; split; apply N.leb_le; lia.
  - replace (0xd800 + q - 0xd800) with q by lia.
    replace (0xdc00 + r - 0xdc00) with r by lia.
    rewrite lor_shiftl_low by assumption. lia.
Qed.

Lemma scanstring_plain (c : codepoint) (t : str) :
  (c =? QUOTE) = false -> (c =? ord "\") = false -> (c <? 32) = false ->
  scanstring (c :: t) = cons_char c (scanstring t).
Proof.
  intros H1 H2 H3. cbn [scanstring]. now rewrite H1, H2, H3.
Qed.

Lemma scalar_not_high (c : codepoint) :
  scalar_value c = true -> is_high_surrogate c = false.
Proof.
  unfold scalar_value, is_high_surrogate. intros H.
  apply andb_true_iff in H. destruct H as [_ H]. apply negb_true_iff in H.
  apply andb_false_iff in H. apply andb_false_iff.
  destruct H as [H|H]; [now left | right].
  apply N.leb_gt in H. apply N.leb_gt. lia.
Qed.

Lemma scanstring_u_escape (n : N) (t : str) :
  n < 0x10000 ->
  scanstring (u_escape n ++ t) =
  if is_high_surrogate n then
    match t with
    | b :: u :: g1 :: g2 :: g3 :: g4 :: r3 =>
        if (b =? ord "\") && (u =? ord "u") then
          match decode_uXXXX g1 g2 g3 g4 with
          | None => None
          | Some uni2 =>
              if is_low_surrogate uni2
              then cons_char (join_surrogates n uni2) (scanstring r3)
              else cons_char n (scanstring t)
          end
        else cons_char n (scanstring t)
    | _ => cons_char n (scanstring t)
    end
  else cons_char n (scanstring t).
Proof.
  intros H.
  change (u_escape n ++ t)
    with (ord "\" :: ord "u" :: hex_digit (N.shiftr n 12 mod 16)
            :: hex_digit (N.shiftr n 8 mod 16) :: hex_digit (N.shiftr n 4 mod 16)
            :: hex_digit (n mod 16) :: t).
  now rewrite scanstring_u, decode_u_escape.
Qed.

(** One character: the decoder reads back what the encoder wrote for it. *)
Lemma scanstring_escape_char (c : codepoint) (t : str) :
  scalar_value c = true ->
  scanstring (escape_char c ++ t) = cons_char c (scanstring t).
Proof.
  intros Hc. pose proof (scalar_not_high c Hc) as Hhigh.
  unfold scalar_value in Hc. apply andb_true_iff in Hc. destruct Hc as [Hlt _].
  apply N.ltb_lt in Hlt.
  unfold escape_char.
  destruct ((ord " " <=? c) && (c <=? ord "~") && negb (c =? QUOTE) && negb (c =? ord "\"))
    eqn:Hraw.
  - apply andb_true_iff in Hraw. destruct Hraw as [Hraw H4].
    apply andb_true_iff in Hraw. destruct Hraw as [Hraw H3].
    apply andb_true_iff in Hraw. destruct Hraw as [H1 H2].
    apply negb_true_iff in H3, H4. apply N.leb_le in H1.
    apply scanstring_plain; try assumption.
    apply N.ltb_ge. exact H1.
  - clear Hraw.
    destruct (c =? QUOTE) eqn:E1; [apply N.eqb_eq in E1; subst c; reflexivity|].
    destruct (c =? ord "\") eqn:E2; [apply N.eqb_eq in E2; subst c; reflexivity|].
    destruct (c =? 8) eqn:E3; [apply N.eqb_eq in E3; subst c; reflexivity|].
    destruct (c =? 12) eqn:E4; [apply N.eqb_eq in E4; subst c; reflexivity|].
    destruct (c =? 10) eqn:E5; [apply N.eqb_eq in E5; subst c; reflexivity|].
    destruct (c =? 13) eqn:E6; [apply N.eqb_eq in E6; subst c; reflexivity|].
    destruct (c =? 9) eqn:E7; [apply N.eqb_eq in E7; subst c; reflexivity|].
    destruct (c <? 0x10000) eqn:E8.
    + apply N.ltb_lt in E8.
      now rewrite scanstring_u_escape, Hhigh.
    + apply N.ltb_ge in E8.
      destruct (surrogate_pair c E8 Hlt) as (B1 & B2 & S1 & S2 & J).
      cbv zeta. rewrite <- List.app_assoc.
      rewrite scanstring_u_escape, S1 by exact B1.
      change (u_escape (N.lor 0xdc00 (N.land (c - 0x10000) 0x3ff)) ++ t)
        with (ord "\" :: ord "u"
                :: hex_digit (N.shiftr (N.lor 0xdc00 (N.land (c - 0x10000) 0x3ff)) 12 mod 16)
                :: hex_digit (N.shiftr (N.lor 0xdc00 (N.land (c - 0x10000) 0x3ff)) 8 mod 16)
                :: hex_digit (N.shiftr (N.lor 0xdc00 (N.land (c - 0x10000) 0x3ff)) 4 mod 16)
                :: hex_digit (N.lor 0xdc00 (N.land (c - 0x10000) 0x3ff) mod 16) :: t).
      cbv iota beta.
      replace ((ord "\" =? ord "\") && (ord "u" =? ord "u")) with true by reflexivity.
      now rewrite decode_u_escape, S2, J by exact B2.
Qed.

Lemma scanstring_encode (s rest : str) :
  valid_str s = true ->
  scanstring (flat_map escape_char s ++ QUOTE :: rest) = Some (s, rest).
Proof.
  induction s as [|c s IH]; intros H.
  - reflexivity.
  - simpl in H. apply andb_true_iff in H. destruct H as [Hc Hs].
    cbn [flat_map]. rewrite <- List.app_assoc, scanstring_escape_char by exact Hc.
    now rewrite IH.
Qed.

(** *** Numbers *)

Lemma number_end_head (rest : str) :
  number_end rest = true ->
  rest = [] \/
  exists c r, rest = c :: r /\ is_digit c = false /\ (c =? ord ".") = false /\
              (c =? ord "e") = false /\ (c =? ord "E") = false /\
              (c =? ord "+") = false /\ (c =? ord "-") = false.
Proof.
  destruct rest as [|c r]; [now left|]. intros H. right. exists c, r.
  unfold number_end in H. apply negb_true_iff in H.
  repeat (apply orb_false_iff in H; destruct H as [H ?]).
  repeat split; assumption.
Qed.

Lemma span_digits_app (s rest d r : str) :
  number_end rest = true ->
  span_digits s = (d, r) -> span_digits (s ++ rest) = (d, r ++ rest).
Proof.
  intros Hend. revert d r. induction s as [|c s IH]; intros d r H.
  - injection H as <- <-. cbn [List.app].
    destruct (number_end_head rest Hend) as [->|(c & r & -> & Hd & _)];
      [reflexivity|].
    cbn [span_digits]. now rewrite Hd.
  - cbn [List.app span_digits] in *. destruct (is_digit c).
    + destruct (span_digits s) as [d' r'] eqn:E. injection H as <- <-.
      now rewrite (IH d' r' eq_refl).
    + now injection H as <- <-.
Qed.

Lemma match_integer_app (s rest i r : str) :
  number_end rest = true ->
  match_integer s = Some (i, r) -> match_integer (s ++ rest) = Some (i, r ++ rest).
Proof.
  intros Hend. unfold match_integer.
  assert (G : forall (sign s1 : str),
             match s1 with
             | [] => None
             | c :: r0 =>
                 if c =? ord "0" then Some (sign ++ [c], r0)
                 else if is_digit c
                      then let (d, r') := span_digits r0 in Some (sign ++ c :: d, r')
                      else None
             end = Some (i, r) ->
             match s1 ++ rest with
             | [] => None
             | c :: r0 =>
                 if c =? ord "0" then Some (sign ++ [c], r0)
                 else if is_digit c
                      then let (d, r') := span_digits r0 in Some (sign ++ c :: d, r')
                      else None
             end = Some (i, r ++ rest)).
  { intros sign [|c r0]; [discriminate|]. cbn [List.app].
    destruct (c =? ord "0"); [now intros [= <- <-]|].
    destruct (is_digit c); [|discriminate].
    destruct (span_digits r0) as [d r'] eqn:E. intros [= <- <-].
    now rewrite (span_digits_app _ _ _ _ Hend E). }
  destruct s as [|c s]; [discriminate|]. cbn [List.app].
  destruct (c =? ord "-").
  - apply G.
  - apply (G [] (c :: s)).
Qed.

Lemma match_frac_app (s rest f r : str) :
  number_end rest = true ->
  match_frac s = (f, r) -> match_frac (s ++ rest) = (f, r ++ rest).
Proof.
  intros Hend. unfold match_frac. destruct s as [|c s]; cbn [List.app].
  - intros [= <- <-].
    destruct (number_end_head rest Hend) as [->|(c & r & -> & _ & Hd & _)];
      [reflexivity|].
    now rewrite Hd.
  - destruct (c =? ord "."); [|now intros [= <- <-]].
    destruct (span_digits s) as [d r'] eqn:E.
    rewrite (span_digits_app _ _ _ _ Hend E).
    destruct d; now intros [= <- <-].
Qed.

Lemma match_exp_app (s rest e r : str) :
  number_end rest = true ->
  match_exp s = (e, r) -> match_exp (s ++ rest) = (e, r ++ rest).
Proof.
  intros Hend. unfold match_exp. destruct s as [|c s]; cbn [List.app].
  - intros [= <- <-].
    destruct (number_end_head rest Hend) as [->|(c & r & -> & _ & _ & H1 & H2 & _)];
      [reflexivity|].
    now rewrite H1, H2.
  - destruct ((c =? ord "e") || (c =? ord "E")); [|now intros [= <- <-]].
    destruct s as [|g s]; cbn [List.app].
    + intros [= <- <-].
      destruct (number_end_head rest Hend)
        as [->|(c' & r & -> & Hd & _ & _ & _ & H3 & H4)]; [reflexivity|].
      rewrite H3, H4. cbn [orb span_digits]. now rewrite Hd.
    + destruct ((g =? ord "-") || (g =? ord "+")).
      * destruct (span_digits s) as [d r'] eqn:E.
        rewrite (span_digits_app _ _ _ _ Hend E).
        destruct d; now intros [= <- <-].
      * destruct (span_digits (g :: s)) as [d r'] eqn:E.
        change (g :: s ++ rest) with ((g :: s) ++ rest).
        rewrite (span_digits_app _ _ _ _ Hend E).
        destruct d; now intros [= <- <-].
Qed.

(** A number followed by text that does not continue it is read alike. *)
Lemma match_number_app (s rest : str) (v : value) (r : str) :
  number_end rest = true ->
  match_number s = Some (v, r) -> match_number (s ++ rest) = Some (v, r ++ rest).
Proof.
  intros Hend. unfold match_number.
  destruct (match_integer s) as [[i s1]|] eqn:E1; [|discriminate].
  rewrite (match_integer_app _ _ _ _ Hend E1).
  destruct (match_frac s1) as [f s2] eqn:E2.
  rewrite (match_frac_app _ _ _ _ Hend E2).
  destruct (match_exp s2) as [e s3] eqn:E3.
  rewrite (match_exp_app _ _ _ _ Hend E3).
  destruct f, e; now intros [= <- <-].
Qed.

Lemma span_digits_of_uint (u : Decimal.uint) :
  span_digits (digits_of_uint u) = (digits_of_uint u, []).
Proof.
  induction u; cbn [digits_of_uint span_digits]; [reflexivity|..];
    (replace (is_digit _) with true by reflexivity); now rewrite IHu.
Qed.

Lemma uint_of_digits_of_uint (u : Decimal.uint) :
  uint_of_digits (digits_of_uint u) = u.
Proof.
  induction u; cbn [digits_of_uint uint_of_digits]; [reflexivity|..];
    rewrite IHu; reflexivity.
Qed.

Lemma nzhead_not_D0 (d d' : Decimal.uint) : nzhead d <> D0 d'.
Proof.
  induction d; cbn [nzhead]; try discriminate. exact IHd.
Qed.

Lemma pos_to_uint_head (p : positive) :
  exists c r, digits_of_uint (Pos.to_uint p) = c :: r /\
              is_digit c = true /\ (c =? ord "0") = false /\ (c =? ord "-") = false.
Proof.
  assert (N : Pos.to_uint p = unorm (Pos.to_uint p)).
  { rewrite <- (DecimalPos.Unsigned.to_of (Pos.to_uint p)).
    now rewrite DecimalPos.Unsigned.of_to. }
  pose proof (DecimalPos.Unsigned.to_uint_nonzero p) as Z.
  destruct (Pos.to_uint p) as [|d|d|d|d|d|d|d|d|d|d] eqn:E;
    try (eexists _, _; repeat split; reflexivity).
  - now elim (DecimalPos.Unsigned.to_uint_nonnil p).
  - exfalso. unfold unorm in N. cbn [nzhead] in N.
    destruct (nzhead d) as [|u|u|u|u|u|u|u|u|u|u] eqn:Hd; try discriminate N.
    + injection N as ->. now elim Z.
    + now elim (nzhead_not_D0 d u).
Qed.

Lemma match_number_int_repr (z : Z) :
  match_number (int_repr z) = Some (VInt z, []).
Proof.
  unfold int_repr. destruct z as [|p|p]; cbn [Z.to_int].
  - reflexivity.
  - destruct (pos_to_uint_head p) as (c & r & E & Hd & H0 & Hm).
    unfold match_number, match_integer. rewrite E, Hm, H0, Hd.
    assert (S : span_digits r = (r, [])).
    { pose proof (span_digits_of_uint (Pos.to_uint p)) as S. rewrite E in S.
      cbn [span_digits] in S. rewrite Hd in S.
      destruct (span_digits r) as [d r']. now injection S as -> ->. }
    rewrite S. cbn [List.app match_frac match_exp].
    unfold int_of_literal. rewrite Hm, <- E, uint_of_digits_of_uint.
    change (Decimal.Pos (Pos.to_uint p)) with (Z.to_int (Z.pos p)).
    now rewrite DecimalZ.of_to.
  - destruct (pos_to_uint_head p) as (c & r & E & Hd & H0 & Hm).
    unfold match_number, match_integer.
    replace (ord "-" =? ord "-") with true by reflexivity.
    rewrite E, H0, Hd.
    assert (S : span_digits r = (r, [])).
    { pose proof (span_digits_of_uint (Pos.to_uint p)) as S. rewrite E in S.
      cbn [span_digits] in S. rewrite Hd in S.
      destruct (span_digits r) as [d r']. now injection S as -> ->. }
    rewrite S. cbn [List.app match_frac match_exp].
    unfold int_of_literal.
    replace (ord "-" =? ord "-") with true by reflexivity.
    rewrite <- E, uint_of_digits_of_uint.
    change (Decimal.Neg (Pos.to_uint p)) with (Z.to_int (Z.neg p)).
    now rewrite DecimalZ.of_to.
Qed.

Lemma match_number_head (s : str) (v : value) (r : str) :
  match_number s = Some (v, r) ->
  exists c s', s = c :: s' /\ (c = ord "-" \/ is_digit c = true).
Proof.
  unfold match_number, match_integer.
  destruct s as [|c s']; [discriminate|]. intros H. exists c, s'. split; [reflexivity|].
  destruct (c =? ord "-") eqn:E; [left; now apply N.eqb_eq|right].
  destruct (c =? ord "0") eqn:E0; [apply N.eqb_eq in E0; now subst c|].
  destruct (is_digit c); [reflexivity | discriminate].
Qed.

Lemma is_digit_range (c : codepoint) : is_digit c = true -> 48 <= c <= 57.
Proof.
  unfold is_digit. intros H. apply andb_true_iff in H. destruct H as [H1 H2].
  apply N.leb_le in H1, H2. unfold ord in *. simpl in *. lia.
Qed.

(** A character that opens neither a string, nor an object, nor an array
    leaves the constants and the numbers. *)
Lemma scan_once_atom (fuel : nat) (c : codepoint) (s : str) :
  (c =? QUOTE) = false -> (c =? ord "{") = false -> (c =? ord "[") = false ->
  scan_once (S fuel) (c :: s) = scan_atom (c :: s).
Proof.
  intros H1 H2 H3. cbn [scan_once]. now rewrite H1, H2, H3.
Qed.

Lemma scan_once_number (fuel : nat) (s : str) (v : value) (r : str) :
  match_number s = Some (v, r) -> scan_once (S fuel) s = Scanned v r.
Proof.
  intros H. destruct (match_number_head s v r H) as (c & s' & -> & Hc).
  assert (R : c = 45 \/ 48 <= c <= 57).
  { destruct Hc as [->|Hc]; [now left | right; now apply is_digit_range]. }
  assert (Q : forall k, k <> 45 -> ~ 48 <= k <= 57 -> (c =? k) = false /\ (k =? c) = false).
  { intros k K1 K2. split; apply N.eqb_neq; lia. }
  rewrite scan_once_atom; try (apply Q; unfold QUOTE, ord; simpl; lia).
  unfold scan_atom.
  assert (Hn : strip_prefix "null" (c :: s') = None).
  { cbn [strip_prefix str_of_string]. change (N_of_ascii "n") with 110.
    now rewrite (proj2 (Q 110 ltac:(lia) ltac:(lia))). }
  assert (Ht : strip_prefix "true" (c :: s') = None).
  { cbn [strip_prefix str_of_string]. change (N_of_ascii "t") with 116.
    now rewrite (proj2 (Q 116 ltac:(lia) ltac:(lia))). }
  assert (Hf : strip_prefix "false" (c :: s') = None).
  { cbn [strip_prefix str_of_string]. change (N_of_ascii "f") with 102.
    now rewrite (proj2 (Q 102 ltac:(lia) ltac:(lia))). }
  now rewrite Hn, Ht, Hf, H.
Qed.

(** *** Dicts *)

Lemma distinct_NoDup (keys : list str) : distinct keys = true -> NoDup keys.
Proof.
  induction keys as [|k r IH]; intros H; [constructor|].
  cbn [distinct] in H. apply andb_true_iff in H. destruct H as [H1 H2].
  constructor; [|now apply IH].
  intros Hin. apply negb_true_iff in H1.
  assert (E : existsb (str_eqb k) r = true).
  { apply existsb_exists. exists k. split; [exact Hin | apply str_eqb_refl]. }
  congruence.
Qed.

Lemma dict_set_fresh (d : list (str * value)) (key : str) (v : value) :
  ~ In key (map fst d) -> dict_set d key v = d ++ [(key, v)].
Proof.
  induction d as [|[k w] r IH]; intros H; [reflexivity|].
  cbn [dict_set List.app]. cbn [map fst In] in H.
  destruct (str_eqb k key) eqn:E.
  - apply str_eqb_eq in E. elim H. now left.
  - rewrite IH; [reflexivity|]. intros Hin. apply H. now right.
Qed.

Lemma dict_of_pairs_distinct (d : list (str * value)) :
  distinct (map fst d) = true -> dict_of_pairs d = d.
Proof.
  intros H. apply distinct_NoDup in H. unfold dict_of_pairs.
  assert (G : forall l acc, NoDup (map fst acc ++ map fst l) ->
                fold_left (fun d kv => dict_set d (fst kv) (snd kv)) l acc = acc ++ l).
  { induction l as [|[k v] l IH]; intros acc N; cbn [fold_left fst snd].
    - now rewrite List.app_nil_r.
    - cbn [map fst] in N. rewrite dict_set_fresh.
      + rewrite IH; [now rewrite <- List.app_assoc|].
        now rewrite List.map_app, <- List.app_assoc.
      + apply NoDup_remove_2 in N. intros Hin. apply N, in_or_app. now left. }
  now apply (G d []).
Qed.

(** *** Values *)

Lemma int_repr_head (z : Z) :
  exists c t, int_repr z = c :: t /\ (c = ord "-" \/ is_digit c = true).
Proof.
  exact (match_number_head _ _ _ (match_number_int_repr z)).
Qed.

Lemma number_start (c : codepoint) :
  c = ord "-" \/ is_digit c = true -> value_start c = true.
Proof.
  intros [->|H]; [reflexivity|]. apply is_digit_range in H.
  unfold value_start, is_ws.
  repeat (apply andb_true_iff; split); apply negb_true_iff;
    repeat (apply orb_false_iff; split); apply N.eqb_neq; unfold ord; simpl; lia.
Qed.

Lemma float_literal_cases (lit : str) :
  float_literal lit = true ->
  lit = "NaN" \/ lit = "Infinity" \/ lit = "-Infinity" \/
  match_number lit = Some (VFloat lit, []).
Proof.
  unfold float_literal. intros H.
  apply orb_true_iff in H. destruct H as [H|H].
  - apply orb_true_iff in H. destruct H as [H|H].
    + apply orb_true_iff in H. destruct H as [H|H]; apply str_eqb_eq in H; auto.
    + apply str_eqb_eq in H; auto.
  - right; right; right.
    destruct (match_number lit) as [[[] r]|]; try discriminate.
    destruct r; [|discriminate]. apply str_eqb_eq in H. now subst.
Qed.

Lemma iterencode_head (v : value) :
  jsonable v = true -> exists c t, iterencode v = c :: t /\ value_start c = true.
Proof.
  destruct v as [|[]|z|lit|s|l|d|a]; cbn [jsonable]; intros H;
    try (eexists _, _; split; reflexivity); try discriminate.
  - destruct (int_repr_head z) as (c & t & E & Hc).
    exists c, t. split; [exact E | now apply number_start].
  - destruct (float_literal_cases lit H) as [->|[->|[->|M]]];
      try (eexists _, _; split; reflexivity).
    destruct (match_number_head _ _ _ M) as (c & t & E & Hc).
    exists c, t. split; [exact E | now apply number_start].
Qed.

Lemma skip_ws_start (c : codepoint) (t : str) :
  value_start c = true -> skip_ws (c :: t) = c :: t.
Proof.
  unfold value_start. intros H.
  apply andb_true_iff in H. destruct H as [H _].
  apply andb_true_iff in H. destruct H as [H _].
  apply negb_true_iff in H. cbn [skip_ws]. now rewrite H.
Qed.

Lemma skip_ws_iterencode (v : value) (rest : str) :
  jsonable v = true -> skip_ws (iterencode v ++ rest) = iterencode v ++ rest.
Proof.
  intros H. destruct (iterencode_head v H) as (c & t & -> & Hc).
  now apply skip_ws_start.
Qed.

Lemma value_induction (P : value -> Prop) :
  P VNone -> (forall b, P (VBool b)) -> (forall z, P (VInt z)) ->
  (forall lit, P (VFloat lit)) -> (forall s, P (VStr s)) ->
  (forall l, Forall P l -> P (VList l)) ->
  (forall d, Forall (fun kv => P (snd kv)) d -> P (VDict d)) ->
  (forall a, Forall (fun kv => P (snd kv)) a -> P (VObj a)) ->
  forall v, P v.
Proof.
  intros HN HB HI HF HS HL HD HO.
  fix IH 1. intros [|b|z|lit|s|l|d|a].
  - exact HN.
  - apply HB.
  - apply HI.
  - apply HF.
  - apply HS.
  - apply HL. induction l as [|x l IHl]; constructor; [apply IH | exact IHl].
  - apply HD. induction d as [|[k x] d IHd]; constructor; [apply IH | exact IHd].
  - apply HO. induction a as [|[k x] a IHa]; constructor; [apply IH | exact IHa].
Qed.

Lemma scan_once_array (fuel : nat) (r : str) :
  scan_once (S fuel) (ord "[" :: r) =
  match skip_ws r with
  | [] => Invalid
  | c1 :: r1 =>
      if c1 =? ord "]" then Scanned (VList []) r1
      else
        match array_items fuel (c1 :: r1) with
        | Scanned items rest => Scanned (VList items) rest
        | Invalid => Invalid
        | OutOfFuel => OutOfFuel
        end
  end.
Proof. reflexivity. Qed.

Lemma scan_once_object (fuel : nat) (r : str) :
  scan_once (S fuel) (ord "{" :: r) =
  match skip_ws r with
  | [] => Invalid
  | c1 :: r1 =>
      if c1 =? ord "}" then Scanned (VDict []) r1
      else
        match object_members fuel (c1 :: r1) with
        | Scanned pairs rest => Scanned (VDict (dict_of_pairs pairs)) rest
        | Invalid => Invalid
        | OutOfFuel => OutOfFuel
        end
  end.
Proof. reflexivity. Qed.

Lemma scan_once_string (fuel : nat) (r : str) :
  scan_once (S fuel) (QUOTE :: r) =
  match scanstring r with
  | Some (t, rest) => Scanned (VStr t) rest
  | None => Invalid
  end.
Proof. reflexivity. Qed.

Lemma array_items_step (fuel : nat) (s : str) :
  array_items (S fuel) s =
  match scan_once fuel s with
  | Scanned v r =>
      match skip_ws r with
      | [] => Invalid
      | c :: r1 =>
          if c =? ord "]" then Scanned [v] r1
          else if c =? ord "," then
            match array_items fuel (skip_ws r1) with
            | Scanned items rest => Scanned (v :: items) rest
            | Invalid => Invalid
            | OutOfFuel => OutOfFuel
            end
          else Invalid
      end
  | Invalid => Invalid
  | OutOfFuel => OutOfFuel
  end.
Proof. reflexivity. Qed.

Lemma object_members_step (fuel : nat) (r : str) :
  object_members (S fuel) (QUOTE :: r) =
  match scanstring r with
  | None => Invalid
  | Some (key, r1) =>
      match skip_ws r1 with
      | [] => Invalid
      | c1 :: r2 =>
          if c1 =? ord ":" then
            match scan_once fuel (skip_ws r2) with
            | Scanned v r3 =>
                match skip_ws r3 with
                | [] => Invalid
                | c3 :: r4 =>
                    if c3 =? ord "}" then Scanned [(key, v)] r4
                    else if c3 =? ord "," then
                      match object_members fuel (skip_ws r4) with
                      | Scanned pairs rest => Scanned ((key, v) :: pairs) rest
                      | Invalid => Invalid
                      | OutOfFuel => OutOfFuel
                      end
                    else Invalid
                end
            | Invalid => Invalid
            | OutOfFuel => OutOfFuel
            end
          else Invalid
      end
  end.
Proof. reflexivity. Qed.

Lemma join_cons_app (sep c : str) (r : list str) (tail : str) :
  join sep (c :: r) ++ tail =
  c ++ match r with
       | [] => tail
       | _ :: _ => sep ++ join sep r ++ tail
       end.
Proof.
  destruct r as [|c' r]; [reflexivity|].
  cbn [join]. now rewrite <- !List.app_assoc.
Qed.

Lemma array_items_encode (l : list value) :
  Forall (fun x => jsonable x = true -> decodes x) l ->
  forallb jsonable l = true -> l <> [] ->
  forall (fuel : nat) (rest : str),
    (items_size l <= fuel)%nat ->
    array_items fuel (join ", " (map iterencode l) ++ ord "]" :: rest) = Scanned l rest.
Proof.
  induction l as [|x l IH]; intros HP HJ Hne fuel rest Hfuel; [now elim Hne|].
  inversion_clear HP as [|? ? Hx Hl].
  cbn [forallb] in HJ. apply andb_true_iff in HJ. destruct HJ as [Jx Jl].
  cbn [items_size fold_right] in Hfuel. fold (items_size l) in Hfuel.
  destruct fuel as [|fuel]; [lia|].
  rewrite array_items_step. cbn [map]. rewrite join_cons_app.
  destruct l as [|y l].
  - cbn [map]. rewrite (Hx Jx) by (reflexivity || lia).
    reflexivity.
  - change (match map iterencode (y :: l) with
            | [] => ord "]" :: rest
            | _ :: _ => str_of_string ", " ++ join ", " (map iterencode (y :: l))
                          ++ ord "]" :: rest
            end)
      with (ord "," :: ord " " :: join ", " (map iterencode (y :: l)) ++ ord "]" :: rest).
    set (tail := join ", " (map iterencode (y :: l)) ++ ord "]" :: rest) in *.
    rewrite (Hx Jx) by (reflexivity || lia).
    change (skip_ws (ord "," :: ord " " :: tail)) with (ord "," :: ord " " :: tail).
    cbv iota beta.
    replace (ord "," =? ord "]") with false by reflexivity.
    replace (ord "," =? ord ",") with true by reflexivity.
    change (skip_ws (ord " " :: tail)) with (skip_ws tail).
    assert (T : skip_ws tail = tail).
    { subst tail. cbn [map]. rewrite join_cons_app.
      cbn [forallb] in Jl. apply andb_true_iff in Jl.
      now apply skip_ws_iterencode. }
    rewrite T. subst tail.
    rewrite IH; try assumption; [reflexivity | discriminate | lia].
Qed.

Lemma member_text (k : str) (v : value) (tail : str) :
  (encode_basestring_ascii k ++ ": " ++ iterencode v) ++ tail =
  QUOTE :: flat_map escape_char k ++ QUOTE :: ord ":" :: ord " " :: iterencode v ++ tail.
Proof.
  unfold encode_basestring_ascii. cbn [List.app].
  rewrite <- !List.app_assoc. reflexivity.
Qed.

Lemma object_members_encode (d : list (str * value)) :
  Forall (fun kv => jsonable (snd kv) = true -> decodes (snd kv)) d ->
  forallb (fun kv => valid_str (fst kv) && jsonable (snd kv)) d = true -> d <> [] ->
  forall (fuel : nat) (rest : str),
    (members_size d <= fuel)%nat ->
    object_members fuel (join ", " (encode_members iterencode d) ++ ord "}" :: rest)
      = Scanned d rest.
Proof.
  induction d as [|[k v] d IH]; intros HP HJ Hne fuel rest Hfuel; [now elim Hne|].
  inversion_clear HP as [|? ? Hv Hd]. cbn [snd] in Hv.
  cbn [forallb fst snd] in HJ. apply andb_true_iff in HJ. destruct HJ as [Jkv Jd].
  apply andb_true_iff in Jkv. destruct Jkv as [Jk Jv].
  cbn [members_size fold_right snd] in Hfuel. fold (members_size d) in Hfuel.
  destruct fuel as [|fuel]; [lia|].
  cbn [encode_members]. fold (encode_members iterencode d).
  rewrite join_cons_app, member_text, object_members_step.
  rewrite scanstring_encode by exact Jk.
  change (skip_ws (ord ":" :: ord " " :: ?t)) with (ord ":" :: ord " " :: t).
  cbv iota beta.
  replace (ord ":" =? ord ":") with true by reflexivity.
  destruct d as [|[k' v'] d].
  - cbn [encode_members].
    change (skip_ws (ord " " :: iterencode v ++ ord "}" :: rest))
      with (skip_ws (iterencode v ++ ord "}" :: rest)).
    rewrite skip_ws_iterencode by exact Jv.
    rewrite (Hv Jv) by (reflexivity || lia).
    reflexivity.
  - set (members := encode_members iterencode ((k', v') :: d)) in *.
    assert (M : members = (encode_basestring_ascii k' ++ ": " ++ iterencode v')
                            :: encode_members iterencode d) by reflexivity.
    rewrite M at 1. cbv iota.
    set (tail := join ", " members ++ ord "}" :: rest).
    change (str_of_string ", " ++ tail) with (ord "," :: ord " " :: tail).
    change (skip_ws (ord " " :: iterencode v ++ ord "," :: ord " " :: tail))
      with (skip_ws (iterencode v ++ ord "," :: ord " " :: tail)).
    rewrite skip_ws_iterencode by exact Jv.
    rewrite (Hv Jv) by (reflexivity || lia).
    change (skip_ws (ord "," :: ord " " :: tail)) with (ord "," :: ord " " :: tail).
    cbv iota beta.
    replace (ord "," =? ord "}") with false by reflexivity.
    replace (ord "," =? ord ",") with true by reflexivity.
    change (skip_ws (ord " " :: tail)) with (skip_ws tail).
    assert (T : skip_ws tail = tail).
    { subst tail. rewrite M, join_cons_app, member_text. reflexivity. }
    rewrite T. subst tail members.
    rewrite IH; try assumption; [reflexivity | discriminate | lia].
Qed.

Lemma value_start_not_closing (c : codepoint) :
  value_start c = true -> (c =? ord "]") = false /\ (c =? ord "}") = false.
Proof.
  unfold value_start. intros H.
  apply andb_true_iff in H. destruct H as [H H2].
  apply andb_true_iff in H. destruct H as [_ H1].
  now apply negb_true_iff in H1, H2.
Qed.

(** The decoder reads back every value made of numbers, strings, booleans,
    [None], lists and maps from the text the encoder writes for it. *)
Lemma scan_once_iterencode (v : value) : jsonable v = true -> decodes v.
Proof.
  induction v as [|b|z|lit|s|l IH|d IH|a IH] using value_induction;
    intros J fuel rest Hfuel Hend;
    (destruct fuel as [|fuel]; [cbn [size] in Hfuel; lia|]).
  - reflexivity.
  - destruct b; reflexivity.
  - apply scan_once_number.
    exact (match_number_app _ _ _ _ Hend (match_number_int_repr z)).
  - cbn [jsonable] in J.
    destruct (float_literal_cases lit J) as [->|[->|[->|M]]]; try reflexivity.
    apply scan_once_number.
    exact (match_number_app _ _ _ _ Hend M).
  - cbn [jsonable] in J. cbn [iterencode]. unfold encode_basestring_ascii.
    cbn [List.app]. rewrite <- List.app_assoc. cbn [List.app].
    now rewrite scan_once_string, scanstring_encode.
  - cbn [jsonable] in J. cbn [size] in Hfuel. fold (items_size l) in Hfuel.
    destruct l as [|x l]; [reflexivity|].
    change (iterencode (VList (x :: l)) ++ rest)
      with (ord "[" :: (join ", " (map iterencode (x :: l)) ++ str_of_string "]") ++ rest).
    rewrite <- List.app_assoc.
    change (str_of_string "]" ++ rest) with (ord "]" :: rest).
    rewrite scan_once_array.
    assert (H : exists c t, join ", " (map iterencode (x :: l)) ++ ord "]" :: rest = c :: t
                            /\ value_start c = true).
    { cbn [map]. rewrite join_cons_app.
      cbn [forallb] in J. apply andb_true_iff in J. destruct J as [Jx _].
      destruct (iterencode_head x Jx) as (c & t & -> & Hc).
      now eexists _, _. }
    destruct H as (c & t & E & Hc).
    rewrite E, (skip_ws_start c t Hc), (proj1 (value_start_not_closing c Hc)), <- E.
    now rewrite (array_items_encode (x :: l) IH J ltac:(discriminate) fuel rest
                   ltac:(lia)).
  - cbn [jsonable] in J. apply andb_true_iff in J. destruct J as [Jk J].
    cbn [size] in Hfuel. fold (members_size d) in Hfuel.
    destruct d as [|[k x] d]; [reflexivity|].
    change (iterencode (VDict ((k, x) :: d)) ++ rest)
      with (ord "{" :: (join ", " (encode_members iterencode ((k, x) :: d))
                          ++ str_of_string "}") ++ rest).
    rewrite <- List.app_assoc.
    change (str_of_string "}" ++ rest) with (ord "}" :: rest).
    rewrite scan_once_object.
    assert (H : exists t, join ", " (encode_members iterencode ((k, x) :: d))
                            ++ ord "}" :: rest = QUOTE :: t).
    { cbn [encode_members]. rewrite join_cons_app, member_text. now eexists. }
    destruct H as (t & E).
    rewrite E. change (skip_ws (QUOTE :: t)) with (QUOTE :: t). cbv iota beta.
    replace (QUOTE =? ord "}") with false by reflexivity.
    rewrite <- E.
    rewrite (object_members_encode ((k, x) :: d) IH J ltac:(discriminate) fuel rest
               ltac:(lia)).
    now rewrite (dict_of_pairs_distinct _ Jk).
  - discriminate J.
Qed.

(** *** Fuel *)

Ltac literal_lengths :=
  rewrite ?List.length_app;
  repeat match goal with
         | |- context [List.length (str_of_string ?s)] =>
             let n := eval cbv in (List.length (str_of_string s)) in
             change (List.length (str_of_string s)) with n
         end.

Lemma size_iterencode (v : value) :
  jsonable v = true -> (size v <= 2 * List.length (iterencode v) + 1)%nat.
Proof.
  induction v as [|b|z|lit|s|l IH|d IH|a IH] using value_induction; intros J;
    try (cbn [size]; lia).
  - cbn [jsonable] in J. cbn [size iterencode]. fold (items_size l).
    assert (G : (items_size l <= 2 * List.length (join ", " (map iterencode l)) + 2)%nat).
    { clear -IH J. induction l as [|x l IHl]; [cbn; lia|].
      inversion_clear IH as [|? ? Hx Hl].
      cbn [forallb] in J. apply andb_true_iff in J. destruct J as [Jx Jl].
      specialize (Hx Jx). specialize (IHl Hl Jl).
      cbn [items_size fold_right map]. fold (items_size l).
      destruct l as [|y l].
      - cbn [items_size fold_right map join]. lia.
      - cbn [map] in *.
        change (join ", " (iterencode x :: iterencode y :: map iterencode l))
          with (iterencode x ++ ", " ++ join ", " (iterencode y :: map iterencode l)).
        literal_lengths. lia. }
    literal_lengths. lia.
  - cbn [jsonable] in J. apply andb_true_iff in J. destruct J as [_ J].
    cbn [size iterencode]. fold (members_size d).
    assert (G : (members_size d
                 <= 2 * List.length (join ", " (encode_members iterencode d)) + 2)%nat).
    { clear -IH J. induction d as [|[k x] d IHd]; [cbn; lia|].
      inversion_clear IH as [|? ? Hx Hd]. cbn [snd] in Hx.
      cbn [forallb fst snd] in J. apply andb_true_iff in J. destruct J as [Jx Jd].
      apply andb_true_iff in Jx. destruct Jx as [_ Jx].
      specialize (Hx Jx). specialize (IHd Hd Jd).
      cbn [members_size fold_right snd encode_members].
      fold (members_size d). fold (encode_members iterencode d).
      destruct d as [|[k' y] d].
      - cbn [members_size fold_right encode_members join].
        literal_lengths. lia.
      - set (members := encode_members iterencode ((k', y) :: d)) in *.
        change (join ", " ((encode_basestring_ascii k ++ ": " ++ iterencode x) :: members))
          with ((encode_basestring_ascii k ++ ": " ++ iterencode x)
                  ++ ", " ++ join ", " members).
        literal_lengths. lia. }
    literal_lengths. lia.
  - discriminate J.
Qed.

(** [json.loads(json.dumps(v))] is [v]. *)
Lemma json_loads_dumps (v : value) :
  jsonable v = true -> json_loads (json_dumps v) = Returns v.
Proof.
  intros J. unfold json_loads, json_dumps.
  pose proof (skip_ws_iterencode v [] J) as W. rewrite List.app_nil_r in W. rewrite W.
  pose proof (scan_once_iterencode v J (scan_fuel (iterencode v)) []) as D.
  rewrite List.app_nil_r in D. rewrite D; [reflexivity | | reflexivity].
  unfold scan_fuel. pose proof (size_iterencode v J). lia.
Qed.

(** ** Omitted attributes *)

(** C2, as stated, fails: a [None] stored in the property map is encoded as
    [null]. *)
Lemma serialize_null_inside_properties :
  QbusMqttMessageFactory.serialize (QbusMqttState.object state_with_null_property)
    = dq "{'id': 'O1', 'type': 'state', 'properties': {'value': null}}" /\
  has_null (QbusMqttState.object state_with_null_property) = true /\
  json_loads (QbusMqttMessageFactory.serialize (QbusMqttState.object state_with_null_property))
    = Returns
        (VDict [ (str_of_string "id", VStr "O1");
                 (str_of_string "type", VStr "state");
                 (str_of_string "properties", VDict [ (str_of_string "value", VNone) ]) ]).
Proof.
  repeat split; vm_compute; reflexivity.
Qed.

(** C2, amended: a state with [action] and [properties] both [None] is
    encoded as the object of its [id] and [type] only; for every state the
    encoder emits the attributes that are not [None], so that no member of
    the top-level object is [null] (the text decodes to the dict of the
    emitted attributes), and a [null] occurs in the output exactly when a
    [None] lies inside the value of an emitted attribute. *)
Theorem serialize_omits_none_attributes :
  forall state : QbusMqttState.t,
    let emitted := filter (fun kv => negb (is_none (snd kv))) (QbusMqttState.__dict__ state) in
    let inside v := negb (is_none v) && has_null v in
    (forall i t : str,
        QbusMqttMessageFactory.serialize
          (QbusMqttState.object (QbusMqttState.new (VStr i) (VStr t) VNone VNone))
        = dq "{'id': " ++ encode_basestring_ascii i ++ dq ", 'type': "
            ++ encode_basestring_ascii t ++ "}") /\
    IgnoreNoneJsonEncoder.default (QbusMqttState.object state) = Returns (VDict emitted) /\
    QbusMqttMessageFactory.serialize (QbusMqttState.object state) = json_dumps (VDict emitted) /\
    Forall (fun kv => is_none (snd kv) = false) emitted /\
    (jsonable (VDict emitted) = true ->
     json_loads (QbusMqttMessageFactory.serialize (QbusMqttState.object state))
       = Returns (VDict emitted)) /\
    has_null (QbusMqttState.object state)
      = inside (QbusMqttState.id state) || inside (QbusMqttState.type state)
        || inside (QbusMqttState.action state) || inside (QbusMqttState.properties state).
Proof.
  intros state emitted inside.
  split; [|split; [|split; [|split; [|split]]]].
  - intros i t.
    unfold QbusMqttMessageFactory.serialize, json_dumps, encode_basestring_ascii.
    simpl. repeat (rewrite <- List.app_assoc; simpl). reflexivity.
  - reflexivity.
  - unfold QbusMqttMessageFactory.serialize, json_dumps.
    now apply iterencode_default.
  - subst emitted. apply Forall_forall. intros kv H.
    apply filter_In in H. destruct H as [_ H].
    now apply negb_true_iff in H.
  - intros J. unfold QbusMqttMessageFactory.serialize, json_dumps, QbusMqttState.object.
    rewrite (iterencode_default _ (VDict emitted) eq_refl).
    now apply json_loads_dumps.
  - simpl. now rewrite orb_false_r, !orb_assoc.
Qed.

Lemma serialize_omits_none_attributes_witness :
  json_loads (QbusMqttMessageFactory.serialize (QbusMqttState.object thermo_state))
    = Returns
        (VDict [ (str_of_string "id", QbusMqttState.id thermo_state);
                 (str_of_string "type", QbusMqttState.type thermo_state);
                 (str_of_string "properties", QbusMqttState.properties thermo_state) ]).
Proof.
  apply (proj1 (proj2 (proj2 (proj2 (proj2 (serialize_omits_none_attributes thermo_state)))))).
  vm_compute. reflexivity.
Defined.

(** ** Round trip *)




(** ** The decoder never lacks fuel *)

Ltac break_match H :=
  match type of H with
  | context [match ?x with _ => _ end] => destruct x eqn:?
  end.

Lemma skip_ws_length (s : str) : (List.length (skip_ws s) <= List.length s)%nat.
Proof.
  induction s as [|c s IH]; [reflexivity|].
  cbn [skip_ws]. destruct (is_ws c); cbn [List.length]; lia.
Qed.

Lemma strip_prefix_length (p s r : str) :
  strip_prefix p s = Some r -> List.length s = (List.length p + List.length r)%nat.
Proof.
  revert s. induction p as [|a p IH]; intros [|b s] H; cbn [strip_prefix] in H;
    try discriminate; try (injection H as <-; reflexivity).
  destruct (a =? b); [|discriminate]. cbn [List.length]. now rewrite (IH s H).
Qed.

Lemma span_digits_length (s d r : str) :
  span_digits s = (d, r) -> (List.length r <= List.length s)%nat.
Proof.
  revert d r. induction s as [|c s IH]; intros d r H; cbn [span_digits] in H.
  - now injection H as <- <-.
  - destruct (is_digit c).
    + destruct (span_digits s) as [d' r'] eqn:E. injection H as <- <-.
      specialize (IH d' r' eq_refl). cbn [List.length]. lia.
    + now injection H as <- <-.
Qed.

Lemma match_number_length (s : str) (v : value) (r : str) :
  match_number s = Some (v, r) -> (List.length r < List.length s)%nat.
Proof.
  unfold match_number.
  destruct (match_integer s) as [[i s1]|] eqn:E1; [|discriminate].
  destruct (match_frac s1) as [f s2] eqn:E2.
  destruct (match_exp s2) as [e s3] eqn:E3.
  intros H.
  assert (R : r = s3) by (destruct f, e; now injection H as <- <-).
  subst r. clear H.
  assert (L1 : (List.length s1 < List.length s)%nat).
  { unfold match_integer in E1.
    assert (G : forall (sign s0 : str),
               match s0 with
               | [] => None
               | c :: r0 =>
                   if c =? ord "0" then Some (sign ++ [c], r0)
                   else if is_digit c
                        then let (d, r') := span_digits r0 in Some (sign ++ c :: d, r')
                        else None
               end = Some (i, s1) -> (List.length s1 < List.length s0)%nat).
    { intros sign [|c r0]; [discriminate|]. cbn [List.length].
      destruct (c =? ord "0"); [intros [= <- <-]; lia|].
      destruct (is_digit c); [|discriminate].
      destruct (span_digits r0) as [d r'] eqn:E. intros [= <- <-].
      apply span_digits_length in E. lia. }
    destruct s as [|c s]; [discriminate|].
    destruct (c =? ord "-");
      [apply G in E1 | apply (G [] (c :: s)) in E1]; cbn [List.length] in *; lia. }
  assert (L2 : (List.length s2 <= List.length s1)%nat).
  { unfold match_frac in E2.
    destruct s1 as [|c s1]; [injection E2 as <- <-; lia|].
    destruct (c =? ord "."); [|injection E2 as <- <-; lia].
    destruct (span_digits s1) as [d r'] eqn:E. apply span_digits_length in E.
    destruct d; injection E2 as <- <-; cbn [List.length]; lia. }
  assert (L3 : (List.length s3 <= List.length s2)%nat).
  { unfold match_exp in E3.
    destruct s2 as [|c s2]; [injection E3 as <- <-; lia|].
    destruct ((c =? ord "e") || (c =? ord "E")); [|injection E3 as <- <-; lia].
    destruct s2 as [|g s2].
    - cbn [span_digits] in E3. injection E3 as <- <-. lia.
    - destruct ((g =? ord "-") || (g =? ord "+")).
      + destruct (span_digits s2) as [d r'] eqn:E. apply span_digits_length in E.
        destruct d; injection E3 as <- <-; cbn [List.length]; lia.
      + destruct (span_digits (g :: s2)) as [d r'] eqn:E. apply span_digits_length in E.
        destruct d; injection E3 as <- <-; cbn [List.length] in *; lia. }
  lia.
Qed.

Lemma scan_atom_length (s : str) (v : value) (r : str) :
  scan_atom s = Scanned v r -> (List.length r < List.length s)%nat.
Proof.
  unfold scan_atom. intros H.
  repeat break_match H; try discriminate; injection H as <- <-;
    repeat match goal with
           | E : strip_prefix _ _ = Some _ |- _ => apply strip_prefix_length in E
           | E : match_number _ = Some _ |- _ => apply match_number_length in E
           end; cbn [List.length str_of_string] in *; lia.
Qed.

Lemma cons_char_some (c : codepoint) (x : option (str * str)) (t r : str) :
  cons_char c x = Some (t, r) -> exists t', x = Some (t', r).
Proof.
  destruct x as [[t' r']|]; [|discriminate]. intros [= <- <-]. now exists t'.
Qed.

Lemma scanstring_length (s t r : str) :
  scanstring s = Some (t, r) -> (List.length r < List.length s)%nat.
Proof.
  remember (List.length s) as n eqn:Hn.
  assert (Hle : (List.length s <= n)%nat) by lia. clear Hn.
  revert s t r Hle. induction n as [|n IH]; intros s t r Hle H.
  - destruct s; [discriminate | cbn [List.length] in Hle; lia].
  - destruct s as [|c s]; [discriminate|].
    cbn [scanstring] in H. cbn [List.length] in Hle.
    repeat break_match H; try discriminate;
      try (injection H as <- <-; cbn [List.length]; lia);
      apply cons_char_some in H; destruct H as (t' & H);
      apply IH in H; subst; cbn [List.length] in *; lia.
Qed.

Ltac lengths fuel IH1 IH2 IH3 :=
  subst;
  repeat match goal with
         | E : scanstring _ = Some _ |- _ => apply scanstring_length in E
         | E : scan_atom _ = Scanned _ _ |- _ => apply scan_atom_length in E
         | E : scan_once fuel _ = Scanned _ _ |- _ => apply IH1 in E
         | E : array_items fuel _ = Scanned _ _ |- _ => apply IH2 in E
         | E : object_members fuel _ = Scanned _ _ |- _ => apply IH3 in E
         | E : skip_ws ?x = ?y |- _ =>
             assert (List.length y <= List.length x)%nat
               by (rewrite <- E; apply skip_ws_length);
             clear E
         end;
  repeat match goal with
         | E : context [skip_ws ?x] |- _ =>
             lazymatch goal with
             | _ : (List.length (skip_ws x) <= List.length x)%nat |- _ => fail
             | _ => pose proof (skip_ws_length x)
             end
         end;
  cbn [List.length] in *; try lia.

(** Each of the three scanners consumes text. *)
Lemma scan_consumes (fuel : nat) :
  (forall s v r, scan_once fuel s = Scanned v r -> (List.length r < List.length s)%nat) /\
  (forall s l r, array_items fuel s = Scanned l r -> (List.length r < List.length s)%nat) /\
  (forall s d r, object_members fuel s = Scanned d r -> (List.length r < List.length s)%nat).
Proof.
  induction fuel as [|fuel (IH1 & IH2 & IH3)]; [repeat split; intros; discriminate|].
  split; [|split]; intros s x r H.
  - destruct s as [|c s]; [discriminate|]. cbn [scan_once] in H.
    fold (scan_atom (c :: s)) in H.
    repeat break_match H; try discriminate; try (injection H as <- <-);
      lengths fuel IH1 IH2 IH3.
  - rewrite array_items_step in H.
    repeat break_match H; try discriminate; try (injection H as <- <-);
      lengths fuel IH1 IH2 IH3.
  - cbn [object_members] in H.
    repeat break_match H; try discriminate; try (injection H as <- <-);
      lengths fuel IH1 IH2 IH3.
Qed.

Lemma scan_atom_fuel (s : str) : scan_atom s <> OutOfFuel.
Proof.
  unfold scan_atom. intros H. repeat break_match H; discriminate.
Qed.

Ltac out_of_fuel fuel F1 F2 F3 C1 C2 C3 :=
  match goal with
  | E : scan_atom _ = OutOfFuel |- _ => now elim (scan_atom_fuel _ E)
  | E : scan_once fuel ?x = OutOfFuel |- _ =>
      elim (F1 x); [lengths fuel C1 C2 C3 | exact E]
  | E : array_items fuel ?x = OutOfFuel |- _ =>
      elim (F2 x); [lengths fuel C1 C2 C3 | exact E]
  | E : object_members fuel ?x = OutOfFuel |- _ =>
      elim (F3 x); [lengths fuel C1 C2 C3 | exact E]
  end.

(** With twice the length of the text (and two), no scanner stops for lack
    of fuel. *)
Lemma scan_fuel_enough (fuel : nat) :
  (forall s, (2 * List.length s + 1 <= fuel)%nat -> scan_once fuel s <> OutOfFuel) /\
  (forall s, (2 * List.length s + 2 <= fuel)%nat -> array_items fuel s <> OutOfFuel) /\
  (forall s, (2 * List.length s + 2 <= fuel)%nat -> object_members fuel s <> OutOfFuel).
Proof.
  induction fuel as [|fuel (F1 & F2 & F3)]; [repeat split; intros; lia|].
  destruct (scan_consumes fuel) as (C1 & C2 & C3).
  split; [|split]; intros s Hf H.
  - destruct s as [|c s]; [discriminate|]. cbn [scan_once] in H.
    fold (scan_atom (c :: s)) in H.
    repeat break_match H; try discriminate; out_of_fuel fuel F1 F2 F3 C1 C2 C3.
  - rewrite array_items_step in H.
    repeat break_match H; try discriminate; out_of_fuel fuel F1 F2 F3 C1 C2 C3.
  - cbn [object_members] in H.
    repeat break_match H; try discriminate; out_of_fuel fuel F1 F2 F3 C1 C2 C3.
Qed.

(** [json_loads] answers [ValueError] only for text that the grammar
    rejects. *)
Lemma scan_once_fuel (s : str) : scan_once (scan_fuel s) (skip_ws s) <> OutOfFuel.
Proof.
  apply (proj1 (scan_fuel_enough (scan_fuel s))).
  unfold scan_fuel. pose proof (skip_ws_length s). lia.
Qed.

(** * Further properties *)

(** ** The property map *)

Lemma str_eqb_neq (a b : str) : a <> b -> str_eqb a b = false.
Proof.
  intros H. destruct (str_eqb a b) eqn:E; [|reflexivity].
  apply str_eqb_eq in E. contradiction.
Qed.

Lemma dict_get_set_same (d : list (str * value)) (key : str) (v default : value) :
  dict_get (dict_set d key v) key default = v.
Proof.
  induction d as [|[k w] r IH]; cbn [dict_set dict_get].
  - now rewrite str_eqb_refl.
  - destruct (str_eqb k key) eqn:E; cbn [dict_get]; rewrite E; [reflexivity | exact IH].
Qed.

Lemma dict_get_set_other (d : list (str * value)) (key key' : str) (v default : value) :
  key' <> key ->
  dict_get (dict_set d key v) key' default = dict_get d key' default.
Proof.
  intros N. induction d as [|[k w] r IH]; cbn [dict_set dict_get].
  - rewrite str_eqb_neq; [reflexivity | congruence].
  - destruct (str_eqb k key) eqn:E; cbn [dict_get].
    + apply str_eqb_eq in E. subst k.
      rewrite str_eqb_neq; [reflexivity | congruence].
    + destruct (str_eqb k key'); [reflexivity | exact IH].
Qed.

Lemma write_property_entries (self : QbusMqttState.t) (key : str) (v : value) :
  is_map_or_none (QbusMqttState.properties self) = true ->
  QbusMqttState.write_property self key v =
  Returns (QbusMqttState.set_properties self
             (VDict (dict_set (entries (QbusMqttState.properties self)) key v))).
Proof.
  destruct self as [i t a p]. unfold QbusMqttState.write_property.
  cbn [QbusMqttState.properties].
  destruct p; try discriminate; reflexivity.
Qed.

Lemma write_property_returns (self self' : QbusMqttState.t) (key : str) (v : value) :
  QbusMqttState.write_property self key v = Returns self' ->
  is_map_or_none (QbusMqttState.properties self) = true /\
  self' = QbusMqttState.set_properties self
            (VDict (dict_set (entries (QbusMqttState.properties self)) key v)).
Proof.
  intros H.
  destruct (is_map_or_none (QbusMqttState.properties self)) eqn:E.
  - rewrite write_property_entries in H by exact E. now injection H as <-.
  - destruct self as [i t a p]. cbn [QbusMqttState.properties] in E.
    destruct p; discriminate.
Qed.

Lemma dict_set_truthy (d : list (str * value)) (key : str) (v : value) :
  truthy (VDict (dict_set d key v)) = true.
Proof.
  destruct d as [|[k w] r]; cbn [dict_set truthy]; [reflexivity|].
  now destruct (str_eqb k key).
Qed.

(** X1: a property that has been written is read back, whatever default
    the reader passes. *)
Theorem read_property_after_write :
  forall (self self' : QbusMqttState.t) (key : str) (v default : value),
    QbusMqttState.write_property self key v = Returns self' ->
    QbusMqttState.read_property self' key default = Returns v.
Proof.
  intros self self' key v default H.
  apply write_property_returns in H. destruct H as [_ ->].
  unfold QbusMqttState.read_property, QbusMqttState.set_properties.
  cbn [QbusMqttState.properties]. rewrite dict_set_truthy.
  cbn [py_get]. now rewrite dict_get_set_same.
Qed.

Lemma read_property_after_write_witness :
  QbusMqttState.read_property
    (QbusMqttState.new (VStr "O1") (VStr "state") VNone
       (VDict [ (str_of_string "value", VBool true) ]))
    "value" (VBool false)
  = Returns (VBool true).
Proof.
  apply (read_property_after_write
           (QbusMqttState.new (VStr "O1") (VStr "state") VNone VNone)).
  reflexivity.
Defined.

(** X2: writing a property changes nothing else: the other keys read as
    before, and [id], [type] and [action] are kept. *)
Theorem write_property_keeps_the_rest :
  forall (self self' : QbusMqttState.t) (key key' : str) (v default : value),
    QbusMqttState.write_property self key v = Returns self' ->
    key' <> key ->
    QbusMqttState.read_property self' key' default
      = QbusMqttState.read_property self key' default /\
    QbusMqttState.id self' = QbusMqttState.id self /\
    QbusMqttState.type self' = QbusMqttState.type self /\
    QbusMqttState.action self' = QbusMqttState.action self.
Proof.
  intros self self' key key' v default H N.
  apply write_property_returns in H. destruct H as [M ->].
  split; [|repeat split].
  unfold QbusMqttState.read_property, QbusMqttState.set_properties.
  cbn [QbusMqttState.properties]. rewrite dict_set_truthy.
  cbn [py_get]. rewrite dict_get_set_other by exact N.
  destruct (QbusMqttState.properties self) as [| | | | | |d|]; try discriminate.
  - reflexivity.
  - cbn [entries truthy]. destruct d; reflexivity.
Qed.

Lemma write_property_keeps_the_rest_witness :
  QbusMqttState.read_property
    (QbusMqttState.new (VStr "O1") (VStr []) VNone
       (VDict [ (str_of_string "value", VInt 55); (str_of_string "state", VStr "up") ]))
    "state" VNone
  = QbusMqttState.read_property analog_state_at_40 "state" VNone.
Proof.
  apply (proj1 (write_property_keeps_the_rest analog_state_at_40 _ "value" "state"
                  (VInt 55) VNone eq_refl ltac:(discriminate))).
Defined.



(** ** Encoding instances *)





(** ** Device states *)



(** X12: a device state built from a mapping has no [properties] when the
    entry is missing or [null], has the two flags read from the entry when
    it is a map (a missing flag being [None]), and its construction raises
    [AttributeError] when the entry is anything else, or when the data is
    not a mapping. *)
Theorem device_state_construction :
  forall (d : list (str * value)) (other : value),
    QbusMqttDeviceState.__init__ (VDict d) =
      match stored_in d "properties" with
      | None | Some VNone =>
          Returns (QbusMqttDeviceState.new (or_default (stored_in d "id") VNone) None)
      | Some (VDict q) =>
          Returns
            (QbusMqttDeviceState.new (or_default (stored_in d "id") VNone)
               (Some (QbusMqttDeviceStateProperties.new
                        (or_default (stored_in q "connectable") VNone)
                        (or_default (stored_in q "connected") VNone))))
      | Some _ => Raises AttributeError
      end /\
    (match other with VDict _ => False | _ => True end ->
     QbusMqttDeviceState.__init__ other = Raises AttributeError).
Proof.
  intros d other. split.
  - unfold QbusMqttDeviceState.__init__. cbn [py_get bind].
    rewrite !dict_get_stored.
    change KEY_DEVICE_STATE_PROPERTIES with (str_of_string "properties").
    change KEY_DEVICE_ID with (str_of_string "id").
    destruct (stored_in d "properties") as [[| | | | | |q|]|]; cbn [or_default is_none negb];
      try reflexivity.
    unfold QbusMqttDeviceStateProperties.__init__. cbn [py_get bind].
    now rewrite !dict_get_stored.
  - destruct other; intros H; try reflexivity. contradiction.
Qed.

Lemma device_state_construction_witness :
  QbusMqttDeviceState.__init__ (VInt 5) = Raises AttributeError.
Proof.
  exact (proj2 (device_state_construction [] (VInt 5)) I).
Defined.



(** ** Decoding into a state class *)



(** ** Requests *)





(** ** Topics *)

Lemma app_same_length_suffix (a b s t : str) :
  List.length s = List.length t -> a ++ s = b ++ t -> a = b /\ s = t.
Proof.
  intros L E.
  assert (La : List.length a = List.length b).
  { apply (f_equal (@List.length codepoint)) in E. rewrite !List.length_app in E. lia. }
  clear L. revert b La E. induction a as [|x a IH]; intros [|y b] La E;
    try discriminate La.
  - now split.
  - cbn [List.app] in E. injection E as -> E. injection La as La.
    destruct (IH b La E) as [-> ->]. now split.
Qed.

Lemma not_a_state_topic (a b : str) : a ++ "/setState" <> b ++ "/state".
Proof.
  change (str_of_string "/setState") with (str_of_string "/se" ++ str_of_string "tState").
  rewrite List.app_assoc. intros E.
  apply app_same_length_suffix in E; [|reflexivity].
  destruct E as [_ E]. discriminate E.
Qed.

(** X20: a command topic is never a state topic, for any prefixes, device
    ids and output ids, default prefix or not. *)
Theorem command_topics_are_not_state_topics :
  forall (p p' : option str) (d d' o o' : str),
    QbusMqttTopicFactory.get_device_command_topic d p
      <> QbusMqttTopicFactory.get_device_state_topic d' p' /\
    QbusMqttTopicFactory.get_device_command_topic d p
      <> QbusMqttTopicFactory.get_output_state_topic d' o' p' /\
    QbusMqttTopicFactory.get_output_command_topic d o p
      <> QbusMqttTopicFactory.get_device_state_topic d' p' /\
    QbusMqttTopicFactory.get_output_command_topic d o p
      <> QbusMqttTopicFactory.get_output_state_topic d' o' p'.
Proof.
  intros p p' d d' o o'.
  unfold QbusMqttTopicFactory.get_device_command_topic,
    QbusMqttTopicFactory.get_device_state_topic,
    QbusMqttTopicFactory.get_output_command_topic,
    QbusMqttTopicFactory.get_output_state_topic.
  cbv zeta. repeat split; rewrite ?List.app_assoc; apply not_a_state_topic.
Qed.

Lemma command_topics_are_not_state_topics_witness :
  QbusMqttTopicFactory.get_output_command_topic "D1" "O2" None
    <> QbusMqttTopicFactory.get_output_state_topic "D1" "O2" None.
Proof.
  exact (proj2 (proj2 (proj2 (command_topics_are_not_state_topics None None
                                "D1" "D1" "O2" "O2")))).
Defined.
